(** * AdSnap Studio: result resolution, job polling and mask/canvas geometry

    A shallow embedding of the parts of [app.py] and
    [services/image_expansion.py] that carry the engineering content of the
    application: the pixel-region and canvas-placement arithmetic, the
    response-shape handling, the pending-URL poller and the assembly of the
    lifestyle-shot and image-expansion requests.

    Python values coming from the remote service are modelled by [pyval];
    Python floats are IEEE-754 binary64 numbers ([spec_float] with
    [prec = 53], [emax = 1024]); exceptions are the [Raise] case of [result];
    Streamlit's session state, the user-visible messages and the HTTP traffic
    are explicit fields of a [World] that is threaded through a small state
    and exception monad. *)

From Stdlib Require Import ZArith List Ascii String Bool Lia Permutation.
From Stdlib Require Import Floats.SpecFloat.
From Stdlib Require QArith Qround.
Import ListNotations.

Local Open Scope string_scope.
Local Open Scope list_scope.
Local Open Scope Z_scope.

Set Warnings "-register-all".

(* ================================================================== *)
(** * Part I: the model                                                 *)
(* ================================================================== *)

(** ** Exceptions and fallible computations *)

(** The Python exceptions the modelled code can meet.  All of them derive
    from [Exception], so every [except Exception] handler catches them.
    [Wrapped] is the [Exception("Image expansion failed: ...")] re-raised by
    the service wrappers around an inner error. *)
Inductive exn : Type :=
| OverflowError
| ValueError
| TypeError
| IndexError
| KeyError
| UnboundLocalError (name : string)
| HTTPError (status_code : Z)
| RequestException
| Wrapped (inner : exn).

Inductive result (A : Type) : Type :=
| Ok (a : A)
| Raise (e : exn).
Arguments Ok {A} a.
Arguments Raise {A} e.

Definition rbind {A B} (r : result A) (k : A -> result B) : result B :=
  match r with
  | Ok a => k a
  | Raise e => Raise e
  end.

Declare Scope result_scope.
Delimit Scope result_scope with result.
Notation "'let?' x ':=' c 'in' k" := (rbind c (fun x => k))
  (at level 10, x pattern, c at level 100, k at level 200) : result_scope.

Definition is_ok {A} (r : result A) : bool :=
  match r with Ok _ => true | Raise _ => false end.

(** ** Python floats and the int/float conversions the code relies on *)

Module PyFloat.

Definition prec : Z := 53.
Definition emax : Z := 1024.

Definition pyfloat : Type := spec_float.

(** A Python float is a binary64 value in canonical representation. *)
Definition is_float (f : pyfloat) : Prop := valid_binary prec emax f = true.

Definition fzero : pyfloat := S754_zero false.
Definition fone : pyfloat := S754_finite false 4503599627370496 (-52).

Definition fmul : pyfloat -> pyfloat -> pyfloat := SFmul prec emax.
Definition fadd : pyfloat -> pyfloat -> pyfloat := SFadd prec emax.
Definition fdiv : pyfloat -> pyfloat -> pyfloat := SFdiv prec emax.
Definition fleb : pyfloat -> pyfloat -> bool := SFleb.
Definition fltb : pyfloat -> pyfloat -> bool := SFltb.

(** [float(n)] for a Python int: round to nearest, ties to even;
    [OverflowError] when the integer is too large for a double. *)
Definition float_of_int (n : Z) : result pyfloat :=
  match binary_normalize prec emax n 0 false with
  | S754_infinity _ => Raise OverflowError
  | S754_nan => Raise OverflowError
  | f => Ok f
  end.

(** [int(f)]: truncation toward zero; [OverflowError] on an infinity,
    [ValueError] on a NaN. *)
Definition int_of_float (f : pyfloat) : result Z :=
  match f with
  | S754_zero _ => Ok 0
  | S754_finite s m e =>
      Ok (cond_Zopp s
            (match e with
             | Zneg p => Z.shiftr (Zpos m) (Zpos p)
             | _ => Z.shiftl (Zpos m) e
             end))
  | S754_infinity _ => Raise OverflowError
  | S754_nan => Raise ValueError
  end.

(** [n * f] and [n + f] with [n] an int and [f] a float: the int operand
    is converted first. *)
Definition mul_int_float (n : Z) (f : pyfloat) : result pyfloat :=
  (let? x := float_of_int n in Ok (fmul x f))%result.

Definition add_int_float (n : Z) (f : pyfloat) : result pyfloat :=
  (let? x := float_of_int n in Ok (fadd x f))%result.

(** The double nearest to the decimal fraction [num/den]; this is what a
    decimal literal or a slider position such as 0.9 denotes. *)
Definition decimal (num den : Z) : pyfloat :=
  fdiv (binary_normalize prec emax num 0 false)
       (binary_normalize prec emax den 0 false).

(** Ratios as delivered by the sliders of the mask tabs. *)
Definition in_unit_interval (f : pyfloat) : Prop :=
  is_float f /\ fleb fzero f = true /\ fleb f fone = true.

Definition positive_ratio (f : pyfloat) : Prop := fltb fzero f = true.

Definition nonnegative (f : pyfloat) : Prop :=
  is_float f /\ fleb fzero f = true.

(** [f] is a zero or a finite number below [2^B] in magnitude whose
    exponent is within the format. *)
Definition finite_below (B : Z) (f : pyfloat) : Prop :=
  match f with
  | S754_zero _ => True
  | S754_finite _ m e => e <= emax - prec /\ Zpos (digits2_pos m) + e <= B
  | _ => False
  end.

(** [f] is a zero or a finite number of magnitude at most 1. *)
Definition ratio_shape (f : pyfloat) : Prop :=
  match f with
  | S754_zero _ => True
  | S754_finite _ m e => Zpos (digits2_pos m) + e <= 1 /\ e <= 0
  | _ => False
  end.

(** [mrs] is what is left of [m] after dropping its [k] lowest bits: the
    quotient, with a flag raised only if a dropped bit was set. *)
Definition shifted (m k : Z) (mrs : shr_record) : Prop :=
  0 <= shr_m mrs /\ shr_m mrs = m / 2 ^ k /\
  ((shr_r mrs || shr_s mrs)%bool = true -> ~ (2 ^ k | m)).

End PyFloat.

(** ** Geometry: mask regions and canvas placement *)

Module Geometry.
Import PyFloat.

Record Region : Type := {
  x_start : Z;
  y_start : Z;
  mask_width : Z;
  mask_height : Z
}.

(** [int(original_width * ratio)] *)
Definition scale (dimension : Z) (ratio : pyfloat) : result Z :=
  (let? p := mul_int_float dimension ratio in int_of_float p)%result.

(** The bounding-box computation of the Generative Fill tab
    (app.py, "Calculate pixel values" / "Ensure mask doesn't go out of
    bounds"). *)
Definition mask_region (original_width original_height : Z)
    (x_start_ratio y_start_ratio mask_width_ratio mask_height_ratio : pyfloat)
    : result Region :=
  (let? x_start := scale original_width x_start_ratio in
   let? y_start := scale original_height y_start_ratio in
   let? mask_width := scale original_width mask_width_ratio in
   let? mask_height := scale original_height mask_height_ratio in
   let x_end := Z.min (x_start + mask_width) original_width in
   let y_end := Z.min (y_start + mask_height) original_height in
   let mask_width := x_end - x_start in
   let mask_height := y_end - y_start in
   Ok {| x_start := x_start; y_start := y_start;
         mask_width := mask_width; mask_height := mask_height |})%result.

(** The Erase Elements tab repeats the same statements verbatim. *)
Definition erase_region := mask_region.

(** Image dimensions handled by the totality results below: anything
    under [2^1000], far beyond what an image decoder can deliver. *)
Definition dimension_limit : Z := 2 ^ 1000.

Record Placement : Type := {
  canvas_size : Z * Z;
  original_image_size : Z * Z;
  original_image_location : Z * Z
}.

(** [int(dimension * (1 + a + b))] *)
Definition expanded (dimension : Z) (a b : pyfloat) : result Z :=
  (let? s := add_int_float 1 a in
   let? p := mul_int_float dimension (fadd s b) in
   int_of_float p)%result.

(** The Image Expansion tab ("Calculate new canvas dimensions and
    original image position"). *)
Definition expansion_placement (original_width original_height : Z)
    (left_expand_ratio right_expand_ratio
     top_expand_ratio bottom_expand_ratio : pyfloat) : result Placement :=
  (let? new_width :=
     expanded original_width left_expand_ratio right_expand_ratio in
   let? new_height :=
     expanded original_height top_expand_ratio bottom_expand_ratio in
   let? original_x := scale original_width left_expand_ratio in
   let? original_y := scale original_height top_expand_ratio in
   Ok {| canvas_size := (new_width, new_height);
         original_image_size := (original_width, original_height);
         original_image_location := (original_x, original_y) |})%result.

(** The invariant a canvas placement is meant to satisfy: the original
    image lies inside the canvas. *)
Definition fits_canvas (p : Placement) : Prop :=
  fst (original_image_location p) + fst (original_image_size p)
    <= fst (canvas_size p) /\
  snd (original_image_location p) + snd (original_image_size p)
    <= snd (canvas_size p).

(** The placement formulas as the specification words them, in exact
    rational arithmetic: the canvas extent is [w * (1 + a + b)] rounded
    down, the offset of the original is [w * a] rounded down. *)
Definition exact_canvas (w : Z) (a b : QArith_base.Q) : Z :=
  Qround.Qfloor (QArith_base.Qmult (QArith_base.inject_Z w)
    (QArith_base.Qplus (QArith_base.Qplus (QArith_base.inject_Z 1) a) b)).

Definition exact_offset (w : Z) (a : QArith_base.Q) : Z :=
  Qround.Qfloor (QArith_base.Qmult (QArith_base.inject_Z w) a).

End Geometry.

(** ** Python values as delivered by [response.json()] *)

Inductive pyval : Type :=
| PNone
| PBool (b : bool)
| PInt (n : Z)
| PFloat (f : spec_float)
| PStr (s : string)
| PList (items : list pyval)
| PDict (entries : list (string * pyval)).

Module Py.

(** Truth value of an object, as tested by [if result:] and [if urls:]. *)
Definition truthy (v : pyval) : bool :=
  match v with
  | PNone => false
  | PBool b => b
  | PInt n => negb (n =? 0)
  | PFloat (S754_zero _) => false
  | PFloat _ => true
  | PStr s => negb (String.eqb s "")
  | PList items => match items with [] => false | _ :: _ => true end
  | PDict entries => match entries with [] => false | _ :: _ => true end
  end.

(** [d[key]] for a key known to the dictionary, [None] standing for
    [key not in d]. *)
Fixpoint dict_get (key : string) (entries : list (string * pyval))
    : option pyval :=
  match entries with
  | [] => None
  | (k, v) :: rest => if String.eqb k key then Some v else dict_get key rest
  end.

Definition chars (s : string) : list pyval :=
  map (fun c => PStr (String c EmptyString)) (list_ascii_of_string s).

(** The elements produced by iterating over a value, as [list.extend]
    does: list items, the characters of a string, the keys of a dict;
    other JSON values are not iterable. *)
Definition iter_values (v : pyval) : result (list pyval) :=
  match v with
  | PList items => Ok items
  | PStr s => Ok (chars s)
  | PDict entries => Ok (map (fun kv => PStr (fst kv)) entries)
  | _ => Raise TypeError
  end.

(** [urls.extend(v)] *)
Definition extend (urls : list pyval) (v : pyval) : result (list pyval) :=
  (let? items := iter_values v in Ok (urls ++ items))%result.

(** [l[:n]] on a list, for any integer [n] (a negative bound counts from
    the end). *)
Definition slice_list {A} (l : list A) (n : Z) : list A :=
  if n <? 0 then firstn (Z.to_nat (Z.of_nat (List.length l) + n)) l
  else firstn (Z.to_nat n) l.

(** [v[:n]]: lists and strings can be sliced; a dict rejects the slice
    as a key and the scalar values are not subscriptable. *)
Definition slice_to (v : pyval) (n : Z) : result pyval :=
  match v with
  | PList items => Ok (PList (slice_list items n))
  | PStr s =>
      Ok (PStr (string_of_list_ascii (slice_list (list_ascii_of_string s) n)))
  | PDict _ => Raise KeyError
  | _ => Raise TypeError
  end.

(** [v[0]] *)
Definition subscript0 (v : pyval) : result pyval :=
  match v with
  | PList (x :: _) => Ok x
  | PList [] => Raise IndexError
  | PStr (String c _) => Ok (PStr (String c EmptyString))
  | PStr EmptyString => Raise IndexError
  | PDict _ => Raise KeyError
  | _ => Raise TypeError
  end.

End Py.

(** ** The world: session state, user-visible messages, network traffic *)

(** [st.session_state]: the fields the modelled code reads and writes.
    [api_key] is [None] or a string; [edited_image] starts as [PNone]. *)
Record Session : Type := {
  api_key : option string;
  pending_urls : list pyval;
  edited_image : pyval;
  generated_images : list pyval
}.

(** The JSON body posted to the image-expansion endpoint.  [file] holds
    the image bytes, which travel base64-encoded. *)
Record ExpansionPayload : Type := {
  file : list Byte.byte;
  payload_canvas_size : list Z;
  payload_original_image_size : list Z;
  payload_original_image_location : list Z;
  payload_sync : bool
}.

Inductive shown : Type :=
| ShownValue (v : pyval)
| ShownPlacement (label_value : Z * Z)
| ShownError (e : exn).

(** Observable actions, in the order they happen. *)
Inductive event : Type :=
| EvSleep (seconds : Z)                       (* time.sleep *)
| EvHead (url : pyval)                        (* requests.head *)
| EvPost (endpoint : string) (api_token : option string)
         (data : ExpansionPayload)            (* requests.post *)
| EvSuccess (text : string)                   (* st.success *)
| EvError (text : string) (cause : option exn)(* st.error *)
| EvWrite (label : string) (what : shown).    (* st.write *)

Record World : Type := {
  session : Session;
  clock : nat;            (* number of HEAD probes issued so far *)
  log : list event
}.

Module Run.

(** Stateful computations that may raise: the effects of an exception
    raised half-way are kept, as in Python. *)
Definition M (A : Type) : Type := World -> result A * World.

Definition ret {A} (a : A) : M A := fun w => (Ok a, w).

Definition bind {A B} (m : M A) (k : A -> M B) : M B :=
  fun w =>
    match m w with
    | (Ok a, w') => k a w'
    | (Raise e, w') => (Raise e, w')
    end.

Definition raise {A} (e : exn) : M A := fun w => (Raise e, w).

Definition lift {A} (r : result A) : M A := fun w => (r, w).

(** [try: body  except Exception as e: handler e] *)
Definition try_except {A} (body : M A) (handler : exn -> M A) : M A :=
  fun w =>
    match body w with
    | (Ok a, w') => (Ok a, w')
    | (Raise e, w') => handler e w'
    end.

Definition emit (ev : event) : M unit :=
  fun w => (Ok tt, {| session := session w; clock := clock w;
                      log := log w ++ [ev] |}).

Definition get_session : M Session := fun w => (Ok (session w), w).

Definition put_session (s : Session) : M unit :=
  fun w => (Ok tt, {| session := s; clock := clock w; log := log w |}).

Definition set_pending_urls (urls : list pyval) : M unit :=
  fun w => put_session {| api_key := api_key (session w);
                          pending_urls := urls;
                          edited_image := edited_image (session w);
                          generated_images := generated_images (session w) |} w.

Definition set_edited_image (v : pyval) : M unit :=
  fun w => put_session {| api_key := api_key (session w);
                          pending_urls := pending_urls (session w);
                          edited_image := v;
                          generated_images := generated_images (session w) |} w.

Definition set_generated_images (vs : list pyval) : M unit :=
  fun w => put_session {| api_key := api_key (session w);
                          pending_urls := pending_urls (session w);
                          edited_image := edited_image (session w);
                          generated_images := vs |} w.

Definition st_success (text : string) : M unit := emit (EvSuccess text).
Definition st_error (text : string) (cause : option exn) : M unit :=
  emit (EvError text cause).
Definition st_write (label : string) (what : shown) : M unit :=
  emit (EvWrite label what).
Definition time_sleep (seconds : Z) : M unit := emit (EvSleep seconds).

End Run.

Declare Scope run_scope.
Delimit Scope run_scope with run.
Notation "x <- c1 ;; c2" := (Run.bind c1 (fun x => c2))
  (at level 61, c1 at next level, right associativity) : run_scope.
Notation "' pat <- c1 ;; c2" := (Run.bind c1 (fun x => match x with pat => c2 end))
  (at level 61, pat pattern, c1 at next level, right associativity) : run_scope.
Notation "c1 ;; c2" := (Run.bind c1 (fun _ => c2))
  (at level 61, right associativity) : run_scope.

(** ** JobPoller: [check_generated_images] and [auto_check_images] *)

Module Poller.
Import Run.
Local Open Scope run_scope.

Section WithProbe.

(** The network as seen by the poller: the outcome of the [k]-th
    [requests.head] of the run, addressed to [url], is either the
    status code of the response or the exception the call raised. *)
Variable probe : nat -> pyval -> result Z.

Definition requests_head (url : pyval) : M Z :=
  fun w => (probe (clock w) url,
            {| session := session w; clock := S (clock w);
               log := log w ++ [EvHead url] |}).

(** Body of the [for url in st.session_state.pending_urls] loop; the
    accumulator holds the locals [ready_images] and [still_pending]. *)
Definition check_url (url : pyval) (acc : list pyval * list pyval)
    : M (list pyval * list pyval) :=
  let '(ready_images, still_pending) := acc in
  try_except
    (status_code <- requests_head url ;;
     if status_code =? 200
     then ret (ready_images ++ [url], still_pending)
     else ret (ready_images, still_pending ++ [url]))
    (fun _ => ret (ready_images, still_pending ++ [url])).

Fixpoint check_urls (urls : list pyval) (acc : list pyval * list pyval)
    : M (list pyval * list pyval) :=
  match urls with
  | [] => ret acc
  | url :: rest => acc' <- check_url url acc ;; check_urls rest acc'
  end.

Definition check_generated_images : M bool :=
  s <- get_session ;;
  match pending_urls s with
  | [] => ret false
  | _ :: _ =>
      ' (ready_images, still_pending) <-
          check_urls (pending_urls s) ([], []) ;;
      set_pending_urls still_pending ;;
      match ready_images with
      | first :: _ =>
          set_edited_image first ;;
          (if (1 <? Z.of_nat (List.length ready_images))
           then set_generated_images ready_images
           else ret tt) ;;
          ret true
      | [] => ret false
      end
  end.

Definition max_attempts : nat := 3.

(** The [while attempt < max_attempts and st.session_state.pending_urls]
    loop; [remaining] is [max_attempts - attempt].  Besides the value
    returned by [auto_check_images] the loop hands back the final value
    of the counter [attempt]. *)
Fixpoint auto_check_loop (remaining attempt : nat) : M (bool * nat) :=
  match remaining with
  | O => ret (false, attempt)
  | S remaining' =>
      s <- get_session ;;
      match pending_urls s with
      | [] => ret (false, attempt)
      | _ :: _ =>
          time_sleep 2 ;;
          ready <- check_generated_images ;;
          if ready
          then st_success "✨ Image ready!" ;; ret (true, attempt)
          else auto_check_loop remaining' (S attempt)
      end
  end.

Definition auto_check_images : M bool :=
  r <- auto_check_loop max_attempts 0 ;; ret (fst r).

(** A probe outcome counts as "ready" only when it is a 200 response. *)
Definition is_ready (outcome : result Z) : bool :=
  match outcome with
  | Ok status_code => status_code =? 200
  | Raise _ => false
  end.

(** Reference partition of a pending list probed from clock value [k]
    on: the URLs answered with 200, and the others, both in order. *)
Fixpoint ready_part (k : nat) (urls : list pyval) : list pyval :=
  match urls with
  | [] => []
  | url :: rest =>
      if is_ready (probe k url) then url :: ready_part (S k) rest
      else ready_part (S k) rest
  end.

Fixpoint pending_part (k : nat) (urls : list pyval) : list pyval :=
  match urls with
  | [] => []
  | url :: rest =>
      if is_ready (probe k url) then pending_part (S k) rest
      else url :: pending_part (S k) rest
  end.

End WithProbe.

(** The world once every URL of [urls] has been probed and the session
    replaced by [s]. *)
Definition advance (w : World) (s : Session) (urls : list pyval) : World :=
  {| session := s;
     clock := (clock w + List.length urls)%nat;
     log := log w ++ map EvHead urls |}.

(** The session after one poll pass that found [ready] and left [still]. *)
Definition polled (s : Session) (ready still : list pyval) : Session :=
  {| api_key := api_key s;
     pending_urls := still;
     edited_image := match ready with
                     | first :: _ => first
                     | [] => edited_image s
                     end;
     generated_images := if 1 <? Z.of_nat (List.length ready)
                         then ready else generated_images s |}.

Definition nonempty {A} (l : list A) : bool :=
  match l with [] => false | _ :: _ => true end.

(** Every probe of the run fails: it raises or answers with a status
    other than 200. *)
Definition always_failing (probe : nat -> pyval -> result Z) : Prop :=
  forall k url, is_ready (probe k url) = false.

(** One polling round as it shows in the log. *)
Definition round (urls : list pyval) : list event :=
  EvSleep 2 :: map EvHead urls.

Fixpoint count_sleeps (evs : list event) : nat :=
  match evs with
  | [] => O
  | EvSleep _ :: rest => S (count_sleeps rest)
  | _ :: rest => count_sleeps rest
  end.

Definition is_error (ev : event) : bool :=
  match ev with EvError _ _ => true | _ => false end.

End Poller.

(** [l1] is [l2] with some elements removed: relative order is kept. *)
Inductive Subseq {A : Type} : list A -> list A -> Prop :=
| Subseq_nil : Subseq [] []
| Subseq_keep x l1 l2 : Subseq l1 l2 -> Subseq (x :: l1) (x :: l2)
| Subseq_drop x l1 l2 : Subseq l1 l2 -> Subseq l1 (x :: l2).

(** ** ResultNormalizer: the response shapes *)

Module Normalizer.
Import Py Run.
Local Open Scope run_scope.

(** *** Asynchronous responses: accumulating the pending URLs *)

(** One pass of the [for item in result["result"]] body before the
    length test. *)
Definition add_item (urls : list pyval) (item : pyval)
    : result (list pyval) :=
  match item with
  | PDict entries =>
      match dict_get "urls" entries with
      | Some v => extend urls v
      | None => Ok urls
      end
  | PList items => extend urls (PList items)
  | _ => Ok urls
  end.

Fixpoint accumulate (items : list pyval) (urls : list pyval)
    (num_results : Z) : result (list pyval) :=
  match items with
  | [] => Ok urls
  | item :: rest =>
      (let? urls' := add_item urls item in
       if Z.of_nat (List.length urls') >=? num_results
       then Ok urls'                                  (* break *)
       else accumulate rest urls' num_results)%result
  end.

(** The value of [urls] after the [else:] branch of [if sync_mode]
    (lifestyle shot by text, repeated verbatim for the shot by image). *)
Definition collect_urls (response : pyval) (num_results : Z)
    : result (list pyval) :=
  match response with
  | PDict entries =>
      match dict_get "urls" entries with
      | Some v =>
          (let? prefix := slice_to v num_results in extend [] prefix)%result
      | None =>
          match dict_get "result" entries with
          | Some (PList items) =>
              (let? urls := accumulate items [] num_results in
               Ok (slice_list urls num_results))%result
          | _ => Ok []
          end
      end
  | _ => Ok []
  end.

(** The references an item exposes, and all references of a response in
    the order the API reports them (the ResultSet of the specification
    before it is capped). *)
Definition item_references (item : pyval) : list pyval :=
  match add_item [] item with
  | Ok refs => refs
  | Raise _ => []
  end.


(** An item the accumulation loop can digest: its "urls" value, when
    present, is iterable. *)
Definition item_ok (item : pyval) : bool := is_ok (add_item [] item).

(** *** Synchronous responses of the Generate Images tab *)

Definition image_generated : string := "✨ Image generated successfully!".

(** The [for item in result["result"]] loop, left by [break] at the first
    item that yields an image. *)
Fixpoint show_first_item (items : list pyval) : M unit :=
  match items with
  | [] => ret tt
  | item :: rest =>
      match item with
      | PDict entries =>
          match dict_get "urls" entries with
          | Some v =>
              first <- lift (subscript0 v) ;;
              set_edited_image first ;;
              st_success image_generated
          | None => show_first_item rest
          end
      | PList (_ :: _) =>
          first <- lift (subscript0 item) ;;
          set_edited_image first ;;
          st_success image_generated
      | _ => show_first_item rest
      end
  end.

(** The statements under [if result:] . *)
Definition show_result (response : pyval) : M unit :=
  st_write "Debug - Raw API Response:" (ShownValue response) ;;
  match response with
  | PDict entries =>
      match dict_get "result_url" entries with
      | Some v => set_edited_image v ;; st_success image_generated
      | None =>
          match dict_get "result_urls" entries with
          | Some v =>
              first <- lift (subscript0 v) ;;
              set_edited_image first ;;
              st_success image_generated
          | None =>
              match dict_get "result" entries with
              | Some (PList items) => show_first_item items
              | _ => ret tt
              end
          end
      end
  | _ => st_error "No valid result format found in the API response." None
  end.

(** The [try] block of the "Generate Images" button once the call to
    [generate_hd_image] has produced [outcome] (a value, or an exception
    raised by the call). *)
Definition generate_images_clicked (outcome : result pyval) : M unit :=
  try_except
    (response <- lift outcome ;;
     if truthy response then show_result response else ret tt)
    (fun e =>
       st_error "Error generating images: " (Some e) ;;
       st_write "Full error:" (ShownError e)).

(** The session once [v] has been stored as the image to display. *)
Definition displaying (s : Session) (v : pyval) : Session :=
  {| api_key := api_key s;
     pending_urls := pending_urls s;
     edited_image := v;
     generated_images := generated_images s |}.

Definition debug_dump (response : pyval) : event :=
  EvWrite "Debug - Raw API Response:" (ShownValue response).

(** A response matches a recognized shape when it is a dictionary with
    one of the three fields. *)
Definition recognized (response : pyval) : bool :=
  match response with
  | PDict entries =>
      match dict_get "result_url" entries, dict_get "result_urls" entries,
            dict_get "result" entries with
      | None, None, None => false
      | _, _, _ => true
      end
  | _ => false
  end.

End Normalizer.

(** ** RequestAssembler: the lifestyle-shot calls *)

Module Lifestyle.

(** The options of the "Placement Type" select box. *)
Inductive placement : Type :=
| Original | Automatic | ManualPlacement | ManualPadding | CustomCoordinates.

Definition label (p : placement) : string :=
  match p with
  | Original => "Original"
  | Automatic => "Automatic"
  | ManualPlacement => "Manual Placement"
  | ManualPadding => "Manual Padding"
  | CustomCoordinates => "Custom Coordinates"
  end.

(** [s.lower().replace(" ", "_")] on ASCII text. *)
Definition lower_char (c : Ascii.ascii) : Ascii.ascii :=
  let n := Ascii.nat_of_ascii c in
  if (Nat.leb 65 n && Nat.leb n 90)%bool then Ascii.ascii_of_nat (n + 32)
  else c.

Fixpoint api_name (s : string) : string :=
  match s with
  | EmptyString => EmptyString
  | String c rest =>
      let c' := lower_char c in
      String (if Ascii.eqb c' " "%char then "_"%char else c') (api_name rest)
  end.

(** What the user has entered on the Lifestyle Shot form; a field only
    matters when its widget is rendered. *)
Record Form : Type := {
  form_placement : placement;
  form_num_results : Z;
  form_sync_mode : bool;
  form_original_quality : bool;
  form_positions : list string;
  form_padding : Z * Z * Z * Z;           (* left, right, top, bottom *)
  form_shot : Z * Z;                      (* width, height *)
  form_product_size : Z * Z;
  form_product_position : Z * Z;
  form_sku : string;
  form_force_rmbg : bool;
  form_content_moderation : bool;
  form_fast_mode : bool;
  form_optimize_desc : bool;
  form_exclude_elements : string;
  form_prompt : string;
  form_enhance_ref : bool;
  form_ref_influence : spec_float
}.

(** The local variables of [main] that the placement widgets bind; a
    variable whose widget is not rendered stays unbound. *)
Record Locals : Type := {
  positions : option (list string);
  pad_left : option Z; pad_right : option Z;
  pad_top : option Z; pad_bottom : option Z;
  shot_width : option Z; shot_height : option Z;
  fg_width : option Z; fg_height : option Z;
  fg_x : option Z; fg_y : option Z;
  exclude_elements : option string
}.

Definition when {A} (b : bool) (a : A) : option A :=
  if b then Some a else None.

(** The [if placement_type == ...: / elif ...] chain of column 1, the
    "Custom Coordinates" block of column 2 and the "Fast Mode" block. *)
Definition render (f : Form) : Locals :=
  let placement_type := label (form_placement f) in
  let manual_placement := String.eqb placement_type "Manual Placement" in
  let manual_padding :=
    (negb manual_placement && String.eqb placement_type "Manual Padding")%bool in
  let shot :=
    (negb manual_placement && negb manual_padding &&
     (String.eqb placement_type "Automatic"
      || String.eqb placement_type "Manual Placement"
      || String.eqb placement_type "Custom Coordinates"))%bool in
  let custom := String.eqb placement_type "Custom Coordinates" in
  let '(l, r, t, b) := form_padding f in
  {| positions := when manual_placement (form_positions f);
     pad_left := when manual_padding l; pad_right := when manual_padding r;
     pad_top := when manual_padding t; pad_bottom := when manual_padding b;
     shot_width := when shot (fst (form_shot f));
     shot_height := when shot (snd (form_shot f));
     fg_width := when custom (fst (form_product_size f));
     fg_height := when custom (snd (form_product_size f));
     fg_x := when custom (fst (form_product_position f));
     fg_y := when custom (snd (form_product_position f));
     exclude_elements :=
       when (negb (form_fast_mode f)) (form_exclude_elements f) |}.

(** Reading a local variable. *)
Definition read {A} (name : string) (v : option A) : result A :=
  match v with
  | Some a => Ok a
  | None => Raise (UnboundLocalError name)
  end.

Inductive shot_kind : Type :=
| ByText (scene_description : string) (fast optimize_description : bool)
         (exclude : option string)
| ByImage (reference_image : list Byte.byte) (enhance_ref_image : bool)
          (ref_image_influence : spec_float).

(** The keyword arguments handed to [lifestyle_shot_by_text] /
    [lifestyle_shot_by_image]; [None] is Python's [None]. *)
Record ShotArgs : Type := {
  arg_api_key : option string;
  arg_image_data : list Byte.byte;
  arg_placement_type : string;
  arg_num_results : Z;
  arg_sync : bool;
  arg_shot_size : list Z;
  arg_original_quality : bool;
  arg_manual_placement_selection : list string;
  arg_padding_values : option (list Z);
  arg_foreground_image_size : option (list Z);
  arg_foreground_image_location : option (list Z);
  arg_force_rmbg : bool;
  arg_content_moderation : bool;
  arg_sku : option string;
  arg_kind : shot_kind
}.

Local Open Scope result_scope.

(** "Convert placement selections to API format". *)
Definition manual_placements (f : Form) (v : Locals) : result (list string) :=
  if String.eqb (label (form_placement f)) "Manual Placement"
  then let? ps := read "positions" (positions v) in Ok (map api_name ps)
  else Ok ["upper_left"].

Definition shot_size_arg (f : Form) (v : Locals) : result (list Z) :=
  if negb (String.eqb (label (form_placement f)) "Original")
  then let? w := read "shot_width" (shot_width v) in
       let? h := read "shot_height" (shot_height v) in Ok [w; h]
  else Ok [1000; 1000].

Definition padding_values_arg (f : Form) (v : Locals)
    : result (option (list Z)) :=
  if String.eqb (label (form_placement f)) "Manual Padding"
  then let? l := read "pad_left" (pad_left v) in
       let? r := read "pad_right" (pad_right v) in
       let? t := read "pad_top" (pad_top v) in
       let? b := read "pad_bottom" (pad_bottom v) in Ok (Some [l; r; t; b])
  else Ok (Some [0; 0; 0; 0]).

Definition foreground_image_size_arg (f : Form) (v : Locals)
    : result (option (list Z)) :=
  if String.eqb (label (form_placement f)) "Custom Coordinates"
  then let? w := read "fg_width" (fg_width v) in
       let? h := read "fg_height" (fg_height v) in Ok (Some [w; h])
  else Ok None.

Definition foreground_image_location_arg (f : Form) (v : Locals)
    : result (option (list Z)) :=
  if String.eqb (label (form_placement f)) "Custom Coordinates"
  then let? x := read "fg_x" (fg_x v) in
       let? y := read "fg_y" (fg_y v) in Ok (Some [x; y])
  else Ok None.

Definition sku_arg (f : Form) : option string :=
  if String.eqb (form_sku f) "" then None else Some (form_sku f).

(** The argument list of the [lifestyle_shot_by_text] call, evaluated in
    source order. *)
Definition lifestyle_shot_by_text_args (key : option string)
    (image_data : list Byte.byte) (f : Form) : result ShotArgs :=
  let v := render f in
  let? placements := manual_placements f v in
  let? shot_size := shot_size_arg f v in
  let? exclude :=
    (if negb (form_fast_mode f)
     then let? e := read "exclude_elements" (exclude_elements v) in Ok (Some e)
     else Ok None) in
  let? padding_values := padding_values_arg f v in
  let? foreground_image_size := foreground_image_size_arg f v in
  let? foreground_image_location := foreground_image_location_arg f v in
  Ok {| arg_api_key := key;
        arg_image_data := image_data;
        arg_placement_type := api_name (label (form_placement f));
        arg_num_results := form_num_results f;
        arg_sync := form_sync_mode f;
        arg_shot_size := shot_size;
        arg_original_quality := form_original_quality f;
        arg_manual_placement_selection := placements;
        arg_padding_values := padding_values;
        arg_foreground_image_size := foreground_image_size;
        arg_foreground_image_location := foreground_image_location;
        arg_force_rmbg := form_force_rmbg f;
        arg_content_moderation := form_content_moderation f;
        arg_sku := sku_arg f;
        arg_kind := ByText (form_prompt f) (form_fast_mode f)
                           (form_optimize_desc f) exclude |}.

(** The argument list of the [lifestyle_shot_by_image] call. *)
Definition lifestyle_shot_by_image_args (key : option string)
    (image_data reference_image : list Byte.byte) (f : Form)
    : result ShotArgs :=
  let v := render f in
  let? placements := manual_placements f v in
  let? shot_size := shot_size_arg f v in
  let? padding_values := padding_values_arg f v in
  let? foreground_image_size := foreground_image_size_arg f v in
  let? foreground_image_location := foreground_image_location_arg f v in
  Ok {| arg_api_key := key;
        arg_image_data := image_data;
        arg_placement_type := api_name (label (form_placement f));
        arg_num_results := form_num_results f;
        arg_sync := form_sync_mode f;
        arg_shot_size := shot_size;
        arg_original_quality := form_original_quality f;
        arg_manual_placement_selection := placements;
        arg_padding_values := padding_values;
        arg_foreground_image_size := foreground_image_size;
        arg_foreground_image_location := foreground_image_location;
        arg_force_rmbg := form_force_rmbg f;
        arg_content_moderation := form_content_moderation f;
        arg_sku := sku_arg f;
        arg_kind := ByImage reference_image (form_enhance_ref f)
                            (form_ref_influence f) |}.

(** The form with every widget at its default, a prompt entered and a
    given placement type selected. *)
Definition default_form (p : placement) : Form :=
  {| form_placement := p; form_num_results := 4; form_sync_mode := false;
     form_original_quality := false; form_positions := ["Upper Left"];
     form_padding := (0, 0, 0, 0); form_shot := (1000, 1000);
     form_product_size := (500, 500); form_product_position := (0, 0);
     form_sku := ""; form_force_rmbg := false;
     form_content_moderation := false; form_fast_mode := true;
     form_optimize_desc := true; form_exclude_elements := "";
     form_prompt := "a sunny beach"; form_enhance_ref := true;
     form_ref_influence := PyFloat.fone |}.

End Lifestyle.

(** ** Image expansion: [expand_image] and its caller *)

Module Expansion.
Import Run PyFloat Geometry.
Local Open Scope run_scope.

Record HttpResponse : Type := {
  status_code : Z;
  json : result pyval          (* response.json() *)
}.

Definition endpoint : string :=
  "https://engine.prod.bria-api.com/v1/image_expansion".

Definition pair_list (p : Z * Z) : list Z := [fst p; snd p].

Section WithRemote.

(** The remote service: what [requests.post] returns for a payload, or
    the [RequestException] it raises. *)
Variable remote : ExpansionPayload -> result HttpResponse.

Definition requests_post (api_token : option string)
    (data : ExpansionPayload) : M HttpResponse :=
  fun w => (remote data,
            {| session := session w; clock := clock w;
               log := log w ++ [EvPost endpoint api_token data] |}).

Definition raise_for_status (response : HttpResponse) : M unit :=
  if ((400 <=? status_code response) && (status_code response <? 600))%bool
  then raise (HTTPError (status_code response))
  else ret tt.

(** services/image_expansion.py, [expand_image]; the console prints
    are left out. *)
Definition expand_image (key : option string) (image_data : list Byte.byte)
    (canvas_size original_image_size original_image_location : Z * Z)
    (sync : bool) : M pyval :=
  match image_data with
  | [] => raise ValueError
  | _ :: _ =>
      let data :=
        {| file := image_data;
           payload_canvas_size := pair_list canvas_size;
           payload_original_image_size := pair_list original_image_size;
           payload_original_image_location :=
             pair_list original_image_location;
           payload_sync := sync |} in
      try_except
        (response <- requests_post key data ;;
         raise_for_status response ;;
         lift (json response))
        (fun e => raise (Wrapped e))
  end.

(** The payload [expand_image] builds from its arguments. *)
Definition payload_of (image_data : list Byte.byte)
    (canvas_size original_image_size original_image_location : Z * Z)
    (sync : bool) : ExpansionPayload :=
  {| file := image_data;
     payload_canvas_size := pair_list canvas_size;
     payload_original_image_size := pair_list original_image_size;
     payload_original_image_location := pair_list original_image_location;
     payload_sync := sync |}.

(** What [expand_image] returns or raises once the request has been sent. *)
Definition outcome_of (data : ExpansionPayload) : result pyval :=
  match remote data with
  | Raise e => Raise (Wrapped e)
  | Ok response =>
      if ((400 <=? status_code response) && (status_code response <? 600))%bool
      then Raise (Wrapped (HTTPError (status_code response)))
      else match json response with
           | Ok v => Ok v
           | Raise e => Raise (Wrapped e)
           end
  end.

Definition key_missing (key : option string) : bool :=
  match key with
  | None => true
  | Some k => String.eqb k ""
  end.

(** The "Expand Image" button up to the debug print of the response:
    placement computation, then the call of [expand_image].  The value
    returned is the response that the rest of the handler renders. *)
Definition expand_clicked (image_bytes : list Byte.byte)
    (original_width original_height : Z)
    (left_expand_ratio right_expand_ratio
     top_expand_ratio bottom_expand_ratio : pyfloat) : M (option pyval) :=
  s <- get_session ;;
  if key_missing (api_key s)
  then st_error "Please enter your API key in the sidebar." None ;;
       ret None
  else
    try_except
      (p <- lift (expansion_placement original_width original_height
                    left_expand_ratio right_expand_ratio
                    top_expand_ratio bottom_expand_ratio) ;;
       st_write "Calculated Canvas Size: " (ShownPlacement (canvas_size p)) ;;
       st_write "Original Image Size: "
         (ShownPlacement (original_image_size p)) ;;
       st_write "Original Image Location (x,y): "
         (ShownPlacement (original_image_location p)) ;;
       response <- expand_image (api_key s) image_bytes (canvas_size p)
                     (original_image_size p) (original_image_location p)
                     true ;;
       st_write "Debug - Full API Response:" (ShownValue response) ;;
       ret (Some response))
      (fun e => st_error "Image expansion failed: " (Some e) ;; ret None).

Definition posts (evs : list event) : list ExpansionPayload :=
  flat_map (fun ev => match ev with EvPost _ _ d => [d] | _ => [] end) evs.

End WithRemote.

End Expansion.

(** ** Further code of the application *)

(** *** Synchronous responses of the Lifestyle Shot tabs *)

Module LifestyleResult.
Import Py Run Normalizer.
Local Open Scope run_scope.

(** The [if]/[elif] chain under [if sync_mode:] (by text, repeated verbatim
    for the shot by image).  It knows a fourth shape, a top-level [urls],
    and has no branch for a response that is not a dictionary. *)
Definition show_sync_result (response : pyval) : M unit :=
  match response with
  | PDict entries =>
      match dict_get "result_url" entries with
      | Some v => set_edited_image v ;; st_success image_generated
      | None =>
          match dict_get "result_urls" entries with
          | Some v =>
              first <- lift (subscript0 v) ;;
              set_edited_image first ;;
              st_success image_generated
          | None =>
              match dict_get "result" entries with
              | Some (PList items) => show_first_item items
              | _ =>
                  match dict_get "urls" entries with
                  | Some v =>
                      first <- lift (subscript0 v) ;;
                      set_edited_image first ;;
                      st_success image_generated
                  | None => ret tt
                  end
              end
          end
      end
  | _ => ret tt
  end.

(** The statements under [if result:] when [sync_mode] is ticked. *)
Definition lifestyle_sync_result (response : pyval) : M unit :=
  st_write "Debug - Raw API Response:" (ShownValue response) ;;
  show_sync_result response.

End LifestyleResult.

(** *** [initialize_session_state] *)

Module SessionInit.
Import Py.

(** [st.session_state] as a mapping from names to values, in insertion
    order. *)
Definition state : Type := list (string * pyval).

Definition contains (key : string) (st : state) : bool :=
  match dict_get key st with
  | Some _ => true
  | None => false
  end.

(** [if key not in st.session_state: st.session_state.key = value] *)
Definition set_default (key : string) (value : pyval) (st : state) : state :=
  if contains key st then st else st ++ [(key, value)].

(** [os.getenv('BRIA_API_KEY')]: the variable's value, or [None]. *)
Definition getenv_value (env : option string) : pyval :=
  match env with
  | Some k => PStr k
  | None => PNone
  end.

Definition initialize_session_state (env : option string) (st : state)
    : state :=
  let st := set_default "api_key" (getenv_value env) st in
  let st := set_default "generated_images" (PList []) st in
  let st := set_default "current_image" PNone st in
  let st := set_default "pending_urls" (PList []) st in
  let st := set_default "edited_image" PNone st in
  let st := set_default "original_prompt" (PStr "") st in
  set_default "enhanced_prompt" PNone st.

(** The names [initialize_session_state] takes care of. *)
Definition session_keys : list string :=
  ["api_key"; "generated_images"; "current_image"; "pending_urls";
   "edited_image"; "original_prompt"; "enhanced_prompt"].

End SessionInit.

(** *** [download_image] *)

Module Download.
Import Run.
Local Open Scope run_scope.

Record GetResponse : Type := {
  get_status_code : Z;
  content : list Byte.byte
}.

Section WithGet.

(** What [requests.get(url)] returns, or the exception it raises.  The
    request itself leaves no entry in the log. *)
Variable http_get : pyval -> result GetResponse.

Definition download_image (url : pyval) : M (option (list Byte.byte)) :=
  try_except
    (response <- lift (http_get url) ;;
     (if ((400 <=? get_status_code response)
          && (get_status_code response <? 600))%bool
      then raise (HTTPError (get_status_code response))
      else ret tt) ;;
     ret (Some (content response)))
    (fun e => st_error "Error downloading image: " (Some e) ;; ret None).

End WithGet.

(** The statuses [raise_for_status] turns into an [HTTPError]. *)
Definition error_status (code : Z) : bool :=
  ((400 <=? code) && (code <? 600))%bool.

End Download.

(** *** The mask bitmap of the Generative Fill and Erase tabs *)

Module Mask.
Import Geometry.

(** A single-channel ("L") image: its size and the value of each pixel. *)
Record Bitmap : Type := {
  xsize : Z;
  ysize : Z;
  pixel : Z -> Z -> Z
}.

(** [Image.new('L', (width, height), color=0)] *)
Definition new_bitmap (width height : Z) : Bitmap :=
  {| xsize := width; ysize := height; pixel := fun _ _ => 0 |}.

(** [img.putpixel((x, y), value)]: a negative coordinate counts from the
    far edge; a coordinate outside the image is an [IndexError]. *)
Definition putpixel (img : Bitmap) (x y value : Z) : result Bitmap :=
  let x := if x <? 0 then xsize img + x else x in
  let y := if y <? 0 then ysize img + y else y in
  if ((x <? 0) || (xsize img <=? x) || (y <? 0) || (ysize img <=? y))%bool
  then Raise IndexError
  else Ok {| xsize := xsize img; ysize := ysize img;
             pixel := fun a b =>
               if ((a =? x) && (b =? y))%bool then value else pixel img a b |}.

(** [range(start, stop)] *)
Definition py_range (start stop : Z) : list Z :=
  map (fun i => start + Z.of_nat i) (seq 0 (Z.to_nat (stop - start))).

(** [for y in ys: img.putpixel((x, y), 255)] *)
Fixpoint paint_column (img : Bitmap) (x : Z) (ys : list Z) : result Bitmap :=
  match ys with
  | [] => Ok img
  | y :: rest =>
      (let? img' := putpixel img x y 255 in paint_column img' x rest)%result
  end.

(** [for x in xs: for y in ys: img.putpixel((x, y), 255)] *)
Fixpoint paint_columns (img : Bitmap) (xs ys : list Z) : result Bitmap :=
  match xs with
  | [] => Ok img
  | x :: rest =>
      (let? img' := paint_column img x ys in paint_columns img' rest ys)%result
  end.

(** "Draw white rectangle for the mask area": the black image and the two
    nested [range] loops. *)
Definition draw_mask (original_width original_height : Z) (reg : Region)
    : result Bitmap :=
  paint_columns (new_bitmap original_width original_height)
    (py_range (x_start reg) (x_start reg + mask_width reg))
    (py_range (y_start reg) (y_start reg + mask_height reg)).

(** From the sliders to the mask: region computation, then drawing. *)
Definition mask_of_ratios (original_width original_height : Z)
    (x_start_ratio y_start_ratio mask_width_ratio mask_height_ratio
       : PyFloat.pyfloat) : result Bitmap :=
  (let? reg := mask_region original_width original_height
                 x_start_ratio y_start_ratio
                 mask_width_ratio mask_height_ratio in
   draw_mask original_width original_height reg)%result.

(** Membership in the rectangle of a region. *)
Definition in_region (reg : Region) (x y : Z) : bool :=
  ((x_start reg <=? x) && (x <? x_start reg + mask_width reg) &&
   (y_start reg <=? y) && (y <? y_start reg + mask_height reg))%bool.

(** Number of white pixels, counted over the whole image. *)
Definition count_white (img : Bitmap) : nat :=
  List.length
    (filter (fun xy => pixel img (fst xy) (snd xy) =? 255)
       (list_prod (py_range 0 (xsize img)) (py_range 0 (ysize img)))).

End Mask.

(** *** Text of the API vocabulary *)

Module ApiText.

Definition is_upper (c : Ascii.ascii) : bool :=
  let n := Ascii.nat_of_ascii c in (Nat.leb 65 n && Nat.leb n 90)%bool.

(** A character that [lower().replace(" ", "_")] can leave behind. *)
Definition clean_char (c : Ascii.ascii) : bool :=
  (negb (is_upper c) && negb (Ascii.eqb c " "%char))%bool.

Fixpoint all_chars (p : Ascii.ascii -> bool) (s : string) : bool :=
  match s with
  | EmptyString => true
  | String c rest => (p c && all_chars p rest)%bool
  end.

(** The placement vocabulary of the remote API. *)
Definition placement_vocabulary : list string :=
  ["original"; "automatic"; "manual_placement"; "manual_padding";
   "custom_coordinates"].

End ApiText.

(* ================================================================== *)
(** * Part II: properties                                               *)
(* ================================================================== *)

(** Proof steps for monadic goals: expose the next bind, or run the next
    [st.write]. *)
Ltac run_step := unfold Run.bind at 1.
Ltac run_write :=
  unfold Run.bind at 1; unfold Run.st_write at 1; unfold Run.emit at 1.

(** ** Binary64 arithmetic never leaves the finite range on pixel scaling *)

Module PyFloatFacts.
Import PyFloat Geometry.

Lemma digits2_log2 m : Zpos (digits2_pos m) = Z.succ (Z.log2 (Zpos m)).
Proof.
  induction m as [m IH|m IH|]; simpl; try reflexivity.
  - rewrite Pos2Z.inj_succ. f_equal. destruct m; simpl in *; lia.
  - rewrite Pos2Z.inj_succ. f_equal. destruct m; simpl in *; lia.
Qed.

Lemma Zdigits2_le z k : 0 <= z -> 0 <= k -> (Zdigits2 z <= k <-> z < 2 ^ k).
Proof.
  intros Hz Hk. destruct z as [|p|p]; simpl.
  - split; intros; [apply Z.pow_pos_nonneg|]; lia.
  - rewrite digits2_log2. rewrite Z.log2_lt_pow2 by lia. lia.
  - lia.
Qed.

Lemma Zdigits2_nonneg z : 0 <= Zdigits2 z.
Proof. destruct z; simpl; lia. Qed.

Lemma Zdigits2_bound z : 0 <= z -> z < 2 ^ Zdigits2 z.
Proof. intros. apply Zdigits2_le; try lia. apply Zdigits2_nonneg. Qed.

Lemma shr_1_spec mrs : 0 <= shr_m mrs -> shr_m (shr_1 mrs) = shr_m mrs / 2.
Proof.
  destruct mrs as [m r s]; simpl. intros Hm.
  destruct m as [|[p|p|]|p]; simpl; try reflexivity; try lia.
  - rewrite Pos2Z.inj_xI. apply Z.div_unique with 1; lia.
  - rewrite Pos2Z.inj_xO. apply Z.div_unique with 0; lia.
Qed.

Lemma iter_shr_1_spec p : forall mrs, 0 <= shr_m mrs ->
  shr_m (iter_pos shr_1 p mrs) = shr_m mrs / 2 ^ Zpos p.
Proof.
  assert (Hstep : forall mrs, 0 <= shr_m mrs -> 0 <= shr_m mrs / 2)
    by (intros; apply Z.div_pos; lia).
  assert (Hpow : forall q, 0 < 2 ^ Zpos q) by (intros; apply Z.pow_pos_nonneg; lia).
  induction p as [p IH|p IH|]; intros mrs Hm; cbn [iter_pos].
  - assert (H1 : 0 <= shr_m (shr_1 mrs)) by (rewrite shr_1_spec by assumption; auto).
    assert (H2 : 0 <= shr_m (iter_pos shr_1 p (shr_1 mrs))).
    { rewrite IH by assumption. apply Z.div_pos; auto. }
    rewrite IH by assumption. rewrite IH by assumption. rewrite shr_1_spec by assumption.
    rewrite !Z.div_div by (try lia; apply Hpow || specialize (Hpow p); lia).
    f_equal. replace (Z.pos p~1) with (1 + Z.pos p + Z.pos p) by lia.
    rewrite !Z.pow_add_r by lia. change (2 ^ 1) with 2. ring.
  - assert (H2 : 0 <= shr_m (iter_pos shr_1 p mrs)).
    { rewrite IH by assumption. apply Z.div_pos; auto. }
    rewrite IH by assumption. rewrite IH by assumption.
    rewrite !Z.div_div by (try lia; apply Hpow || specialize (Hpow p); lia).
    f_equal. replace (Z.pos p~0) with (Z.pos p + Z.pos p) by lia.
    rewrite Z.pow_add_r by lia. reflexivity.
  - rewrite shr_1_spec by assumption. reflexivity.
Qed.

Lemma Zdigits2_div_pow2 m p : 0 <= m ->
  Zdigits2 (m / 2 ^ Zpos p) <= Z.max (Zdigits2 m - Zpos p) 0.
Proof.
  intros Hm.
  assert (Hpow : 0 < 2 ^ Zpos p) by (apply Z.pow_pos_nonneg; lia).
  assert (Hq : 0 <= m / 2 ^ Zpos p) by (apply Z.div_pos; lia).
  pose proof (Zdigits2_bound m Hm) as Hb.
  pose proof (Zdigits2_nonneg m) as Hd.
  apply Zdigits2_le; try lia.
  apply Z.div_lt_upper_bound; try lia.
  rewrite <- Z.pow_add_r by lia.
  eapply Z.lt_le_trans; [exact Hb|].
  apply Z.pow_le_mono_r; lia.
Qed.

Lemma Zdigits2_succ m : 0 <= m -> Zdigits2 (m + 1) <= Zdigits2 m + 1.
Proof.
  intros Hm. pose proof (Zdigits2_bound m Hm) as Hb.
  pose proof (Zdigits2_nonneg m) as Hd.
  apply Zdigits2_le; try lia.
  rewrite Z.pow_add_r by lia. change (2 ^ 1) with 2. lia.
Qed.

Lemma Zdigits2_mono a b : 0 <= a <= b -> Zdigits2 a <= Zdigits2 b.
Proof.
  intros H. pose proof (Zdigits2_bound b ltac:(lia)).
  apply Zdigits2_le; try lia. apply Zdigits2_nonneg.
Qed.

Lemma Zdigits2_mul a b : 0 <= a -> 0 <= b ->
  Zdigits2 (a * b) <= Zdigits2 a + Zdigits2 b.
Proof.
  intros Ha Hb.
  pose proof (Zdigits2_bound a Ha). pose proof (Zdigits2_bound b Hb).
  pose proof (Zdigits2_nonneg a). pose proof (Zdigits2_nonneg b).
  apply Zdigits2_le; try nia.
  rewrite Z.pow_add_r by lia. nia.
Qed.

Lemma shr_m_of_loc m l : shr_m (shr_record_of_loc m l) = m.
Proof. destruct l as [|[]]; reflexivity. Qed.

Lemma shr_fexp_spec m e l : 0 <= m ->
  let r := shr_fexp prec emax m e l in
  0 <= shr_m (fst r) /\
  snd r = Z.max e (fexp prec emax (Zdigits2 m + e)) /\
  Zdigits2 (shr_m (fst r)) + snd r <= Z.max (Zdigits2 m + e) (snd r).
Proof.
  intros Hm. unfold shr_fexp, shr.
  destruct (fexp prec emax (Zdigits2 m + e) - e) as [|p|p] eqn:Hn; cbn [fst snd];
    rewrite ?shr_m_of_loc.
  - repeat split; lia.
  - rewrite iter_shr_1_spec by (rewrite shr_m_of_loc; exact Hm).
    rewrite shr_m_of_loc.
    assert (Hpow : 0 < 2 ^ Zpos p) by (apply Z.pow_pos_nonneg; lia).
    pose proof (Zdigits2_div_pow2 m p Hm).
    repeat split; try lia. apply Z.div_pos; lia.
  - repeat split; lia.
Qed.

Lemma round_nearest_even_bounds m l : 0 <= m ->
  m <= round_nearest_even m l <= m + 1.
Proof.
  intros. destruct l as [|[]]; simpl; try lia. destruct (Z.even m); lia.
Qed.

Lemma binary_round_aux_finite s m e l B :
  0 <= m -> e <= emax - prec -> Zdigits2 m + e <= B -> e <= B -> B < emax ->
  finite_below (Z.max B (emin prec emax) + 1) (binary_round_aux prec emax s m e l).
Proof.
  intros Hm He Hd HeB HB. unfold binary_round_aux.
  pose proof (shr_fexp_spec m e l Hm) as H1. cbv zeta in H1.
  destruct (shr_fexp prec emax m e l) as [mrs1 e1]. cbn [fst snd] in H1.
  destruct H1 as (Hm1 & He1 & Hd1).
  pose proof (round_nearest_even_bounds (shr_m mrs1) (loc_of_shr_record mrs1) Hm1) as Hr.
  set (m2 := round_nearest_even (shr_m mrs1) (loc_of_shr_record mrs1)) in *.
  assert (Hm2 : 0 <= m2) by lia.
  assert (Hd2 : Zdigits2 m2 <= Zdigits2 (shr_m mrs1) + 1).
  { etransitivity; [apply (Zdigits2_mono m2 (shr_m mrs1 + 1)); lia|].
    apply Zdigits2_succ; assumption. }
  pose proof (shr_fexp_spec m2 e1 loc_Exact Hm2) as H2. cbv zeta in H2.
  destruct (shr_fexp prec emax m2 e1 loc_Exact) as [mrs2 e2]. cbn [fst snd] in H2.
  destruct H2 as (Hm3 & He2 & Hd3).
  unfold fexp, emin, prec, emax in *.
  change IntDef.Z.max with Z.max in *.
  destruct (shr_m mrs2) as [|m3|m3] eqn:Hm3e; cbn [finite_below];
    try exact I; try lia.
  change (Zdigits2 (Zpos m3)) with (Zpos (digits2_pos m3)) in Hd3.
  assert (e2 <= 1024 - 53) by lia.
  destruct (Z.leb_spec e2 (1024 - 53)); [|lia].
  cbn [finite_below]. unfold emax, prec.
  change IntDef.Z.max with Z.max in *. lia.
Qed.

Lemma digits2_iter_xO m d :
  Zpos (digits2_pos (Pos.iter xO m d)) = Zpos (digits2_pos m) + Zpos d.
Proof.
  induction d as [|d IH] using Pos.peano_ind.
  - simpl. lia.
  - rewrite Pos.iter_succ. cbn [digits2_pos]. lia.
Qed.

Lemma shl_align_spec mx ex ex' :
  let r := shl_align mx ex ex' in
  snd r <= ex /\
  Zpos (digits2_pos (fst r)) + snd r = Zpos (digits2_pos mx) + ex.
Proof.
  unfold shl_align. destruct (ex' - ex) as [|d|d] eqn:Hd; cbn [fst snd]; try lia.
  rewrite digits2_iter_xO. lia.
Qed.

Lemma float_of_int_finite n : 0 <= n < dimension_limit ->
  exists f, float_of_int n = Ok f /\ finite_below 1001 f.
Proof.
  intros [Hn Hlim]. unfold float_of_int.
  destruct n as [|w|w]; [eexists; split; [reflexivity|exact I] | | lia].
  cbn [binary_normalize]. unfold binary_round.
  pose proof (shl_align_spec w 0 (fexp prec emax (Zpos (digits2_pos w) + 0))) as Hs.
  cbv zeta in Hs.
  destruct (shl_align w 0 (fexp prec emax (Zpos (digits2_pos w) + 0))) as [mz ez].
  cbn [fst snd] in Hs. destruct Hs as [Hez Hdz].
  assert (Hdw : Zdigits2 (Zpos w) <= 1000) by (apply Zdigits2_le; [lia|lia|exact Hlim]).
  cbn [Zdigits2] in Hdw.
  pose proof (binary_round_aux_finite false (Zpos mz) ez loc_Exact 1000) as Hf.
  cbn [Zdigits2] in Hf.
  assert (Hfin : finite_below 1001 (binary_round_aux prec emax false (Zpos mz) ez loc_Exact)).
  { apply Hf; unfold emax, prec; lia. }
  destruct (binary_round_aux prec emax false (Zpos mz) ez loc_Exact);
    cbn [finite_below] in Hfin; try contradiction; eexists; split; try reflexivity;
    assumption.
Qed.

Lemma in_unit_interval_shape r : in_unit_interval r -> ratio_shape r.
Proof.
  intros (Hv & H0 & H1). destruct r as [s|s| |s m e]; cbn [ratio_shape].
  - exact I.
  - destruct s; discriminate.
  - discriminate.
  - destruct s; [discriminate|].
    unfold is_float in Hv. cbn [valid_binary] in Hv. unfold bounded in Hv.
    apply andb_prop in Hv. destruct Hv as [Hc _].
    unfold canonical_mantissa in Hc. apply Z.eqb_eq in Hc.
    unfold fexp, emin, prec, emax in Hc. change IntDef.Z.max with Z.max in Hc.
    unfold fleb, SFleb, fone in H1. cbn [SFcompare] in H1.
    pose proof (digits2_log2 m). pose proof (Z.log2_nonneg (Zpos m)).
    destruct (Z.compare_spec e (-52)); try discriminate; lia.
Qed.

Lemma fmul_finite B x y : B + 1 < emax ->
  finite_below B x -> ratio_shape y ->
  finite_below (Z.max (B + 1) (emin prec emax) + 1) (fmul x y).
Proof.
  intros HB Hx Hy.
  destruct x as [sx|sx| |sx mx ex]; cbn [finite_below] in Hx; try contradiction;
    destruct y as [sy|sy| |sy my ey]; cbn [ratio_shape] in Hy; try contradiction;
    try exact I.
  unfold fmul. cbn [SFmul].
  apply binary_round_aux_finite; try lia.
  pose proof (Zdigits2_mul (Zpos mx) (Zpos my) ltac:(lia) ltac:(lia)) as Hd.
  change (Zpos mx * Zpos my) with (Zpos (mx * my)) in Hd.
  cbn [Zdigits2] in Hd |- *. lia.
Qed.

Lemma int_of_float_finite B f : finite_below B f -> exists z, int_of_float f = Ok z.
Proof.
  destruct f; cbn [finite_below]; try contradiction; intros; eexists; reflexivity.
Qed.

Lemma scale_total n r : 0 <= n < dimension_limit -> in_unit_interval r ->
  exists z, scale n r = Ok z.
Proof.
  intros Hn Hr. unfold scale, mul_int_float.
  destruct (float_of_int_finite n Hn) as (f & -> & Hf). cbn [rbind].
  apply in_unit_interval_shape in Hr.
  eapply int_of_float_finite. apply (fmul_finite 1001); [unfold emax; lia| |]; eassumption.
Qed.

End PyFloatFacts.

(** ** The placement formulas in exact arithmetic *)

Module ExactPlacementFacts.
Import QArith Qround Geometry.
Local Open Scope Z_scope.

Lemma Qfloor_add_Z (q : Q) (z : Z) : Qfloor (q + inject_Z z)%Q = Qfloor q + z.
Proof.
  destruct q as [n d]. unfold Qfloor, Qplus, inject_Z. cbn.
  rewrite Z.mul_1_r, Pos.mul_1_r.
  rewrite Z.div_add by lia. reflexivity.
Qed.

(** With exact products the formulas of the specification do keep the
    original inside the canvas. *)
Lemma exact_placement_fits w a b :
  0 <= w -> (inject_Z 0 <= b)%Q ->
  exact_offset w a + w <= exact_canvas w a b.
Proof.
  intros Hw Hb. unfold exact_offset, exact_canvas.
  rewrite <- Qfloor_add_Z. apply Qfloor_resp_le.
  assert (Hw' : (0 <= inject_Z w)%Q) by (unfold Qle; cbn; lia).
  setoid_replace (inject_Z w * (inject_Z 1 + a + b))%Q
    with (inject_Z w * a + inject_Z w + inject_Z w * b)%Q by ring.
  rewrite <- (Qplus_0_r (inject_Z w * a + inject_Z w)) at 1.
  apply Qplus_le_r. apply Qmult_le_0_compat; assumption.
Qed.

End ExactPlacementFacts.

(** ** Geometry *)

Module GeometryFacts.
Import PyFloat Geometry PyFloatFacts.

Lemma rbind_ok {A B} (r : result A) (k : A -> result B) b :
  rbind r k = Ok b -> exists a, r = Ok a /\ k a = Ok b.
Proof. destruct r as [a|e]; simpl; intros H; [eauto | discriminate]. Qed.

(** Whatever the four products truncate to, the clipped rectangle stays
    inside the image. *)
Lemma mask_region_clipped W H x0 y0 w h reg :
  mask_region W H x0 y0 w h = Ok reg ->
  x_start reg + mask_width reg <= W /\ y_start reg + mask_height reg <= H.
Proof.
  unfold mask_region. intros E.
  apply rbind_ok in E. destruct E as (xs & _ & E).
  apply rbind_ok in E. destruct E as (ys & _ & E).
  apply rbind_ok in E. destruct E as (mw & _ & E).
  apply rbind_ok in E. destruct E as (mh & _ & E).
  injection E as <-. cbn [x_start y_start mask_width mask_height]. lia.
Qed.

Lemma mask_region_unfold W H x0 y0 w h xs ys mw mh :
  scale W x0 = Ok xs -> scale H y0 = Ok ys ->
  scale W w = Ok mw -> scale H h = Ok mh ->
  mask_region W H x0 y0 w h =
    Ok {| x_start := xs; y_start := ys;
          mask_width := Z.min (xs + mw) W - xs;
          mask_height := Z.min (ys + mh) H - ys |}.
Proof. intros E1 E2 E3 E4. unfold mask_region. rewrite E1, E2, E3, E4. reflexivity. Qed.

Lemma mask_region_total W H x0 y0 w h :
  0 <= W < dimension_limit -> 0 <= H < dimension_limit ->
  in_unit_interval x0 -> in_unit_interval y0 ->
  in_unit_interval w -> in_unit_interval h ->
  exists reg, mask_region W H x0 y0 w h = Ok reg.
Proof.
  intros HW HH Hx Hy Hw Hh.
  destruct (scale_total W x0 HW Hx) as (xs & E1).
  destruct (scale_total H y0 HH Hy) as (ys & E2).
  destruct (scale_total W w HW Hw) as (mw & E3).
  destruct (scale_total H h HH Hh) as (mh & E4).
  eexists. apply mask_region_unfold; eassumption.
Qed.

(** C1.  For every image with dimensions at least 1 and all ratios in
    [0,1] with positive width and height ratios, the region computed for
    the Generative Fill tab and for the Erase tab (truncate each product,
    clip the end coordinates, re-derive width and height) satisfies
    [x_start + mask_width <= imageWidth] and
    [y_start + mask_height <= imageHeight] whenever it is produced, and it is
    produced (no exception) for every dimension below [dimension_limit].
    On a 1000x800 image with x0Ratio = 0.9 and wRatio = 0.3 the region
    starts at 900 and its width is 100, not 300. *)
Theorem mask_region_within_image :
  forall (imageWidth imageHeight : Z) (x0Ratio y0Ratio wRatio hRatio : pyfloat),
    1 <= imageWidth -> 1 <= imageHeight ->
    in_unit_interval x0Ratio -> in_unit_interval y0Ratio ->
    in_unit_interval wRatio -> in_unit_interval hRatio ->
    positive_ratio wRatio -> positive_ratio hRatio ->
    (forall reg,
        mask_region imageWidth imageHeight x0Ratio y0Ratio wRatio hRatio = Ok reg
        \/ erase_region imageWidth imageHeight x0Ratio y0Ratio wRatio hRatio = Ok reg ->
        x_start reg + mask_width reg <= imageWidth /\
        y_start reg + mask_height reg <= imageHeight) /\
    (imageWidth < dimension_limit -> imageHeight < dimension_limit ->
     exists reg,
       mask_region imageWidth imageHeight x0Ratio y0Ratio wRatio hRatio = Ok reg /\
       erase_region imageWidth imageHeight x0Ratio y0Ratio wRatio hRatio = Ok reg) /\
    (imageWidth = 1000 -> imageHeight = 800 ->
     x0Ratio = decimal 9 10 -> wRatio = decimal 3 10 ->
     exists reg,
       mask_region imageWidth imageHeight x0Ratio y0Ratio wRatio hRatio = Ok reg /\
       x_start reg = 900 /\ mask_width reg = 100).
Proof.
  intros W H x0 y0 w h HW HH Hx Hy Hw Hh _ _. repeat split.
  - destruct H0 as [E|E]; apply mask_region_clipped in E; apply E.
  - destruct H0 as [E|E]; apply mask_region_clipped in E; apply E.
  - intros LW LH.
    destruct (mask_region_total W H x0 y0 w h) as (reg & E); try assumption; try lia.
    exists reg. split; exact E.
  - intros -> -> -> ->.
    assert (LH : 0 <= 800 < dimension_limit) by (unfold dimension_limit; lia).
    destruct (scale_total 800 y0 LH Hy) as (ys & E2).
    destruct (scale_total 800 h LH Hh) as (mh & E4).
    eexists. split.
    + apply mask_region_unfold; try eassumption; vm_compute; reflexivity.
    + split; reflexivity.
Qed.

(** A run of the statement at the default slider positions of the tab. *)
Lemma mask_region_within_image_witness :
  exists reg,
    mask_region 1000 800 (decimal 9 10) (decimal 25 100)
                (decimal 3 10) (decimal 5 10) = Ok reg /\
    x_start reg = 900 /\ mask_width reg = 100.
Proof.
  apply (mask_region_within_image 1000 800 (decimal 9 10) (decimal 25 100)
           (decimal 3 10) (decimal 5 10));
    try lia; try reflexivity;
    try (repeat split; vm_compute; reflexivity).
Defined.

Example fone_is_one : fone = decimal 1 1 /\ float_of_int 1 = Ok fone.
Proof. split; vm_compute; reflexivity. Qed.

Example decimal_nine_tenths :
  decimal 9 10 = S754_finite false 8106479329266893 (-53).
Proof. vm_compute. reflexivity. Qed.

(** The scenario of the specification: ratios 0.5/0.5/0/0 on an 800x600
    image give a 1600x600 canvas with the original at (400, 0). *)
Example expansion_placement_scenario :
  expansion_placement 800 600 (decimal 5 10) (decimal 5 10) fzero fzero =
    Ok {| canvas_size := (1600, 600);
          original_image_size := (800, 600);
          original_image_location := (400, 0) |}.
Proof. vm_compute. reflexivity. Qed.

(** C6.  The canvas placement is meant to keep the original image inside
    the canvas.  The code computes the canvas width and the location by two
    separately rounded binary64 products, and they disagree: on an 800x600
    image with left = 1.3 and the other three ratios 0 (all of them slider
    positions) the canvas is 1839 wide while the image is placed at x = 1040,
    so that 1040 + 800 = 1840 exceeds the canvas. *)
Theorem expansion_placement_exceeds_canvas :
  nonnegative (decimal 13 10) /\ nonnegative fzero /\
  exists p,
    expansion_placement 800 600 (decimal 13 10) fzero fzero fzero = Ok p /\
    canvas_size p = (1839, 600) /\
    original_image_size p = (800, 600) /\
    original_image_location p = (1040, 0) /\
    ~ fits_canvas p.
Proof.
  split; [split; vm_compute; reflexivity|].
  split; [split; vm_compute; reflexivity|].
  eexists. split; [vm_compute; reflexivity|].
  repeat split. unfold fits_canvas. cbn. lia.
Qed.

End GeometryFacts.

(** ** JobPoller *)

Module PollerFacts.
Import Run Poller.

Section WithProbe.

Variable probe : nat -> pyval -> result Z.

(** The loop over the pending list computes the reference partition,
    probes every URL exactly once and in order, and never raises. *)
Lemma check_urls_spec urls : forall ready still w,
  check_urls probe urls (ready, still) w =
    (Ok (ready ++ ready_part probe (clock w) urls,
         still ++ pending_part probe (clock w) urls),
     advance w (session w) urls).
Proof.
  induction urls as [|url rest IH]; intros ready still w.
  - cbn. unfold Run.ret, advance. cbn. rewrite !app_nil_r, Nat.add_0_r.
    destruct w; reflexivity.
  - cbn [check_urls ready_part pending_part].
    unfold Run.bind at 1. unfold check_url, try_except, Run.bind, requests_head.
    destruct (probe (clock w) url) as [code|e]; cbn [is_ready].
    + destruct (code =? 200); unfold Run.ret; rewrite IH; cbn [clock session log];
        unfold advance; cbn [clock session log List.length map];
        rewrite <- !app_assoc; cbn [app];
        rewrite Nat.add_succ_r; reflexivity.
    + unfold Run.ret; rewrite IH; cbn [clock session log];
        unfold advance; cbn [clock session log List.length map];
        rewrite <- !app_assoc; cbn [app];
        rewrite Nat.add_succ_r; reflexivity.
Qed.

Lemma check_generated_images_spec w :
  let urls := pending_urls (session w) in
  let ready := ready_part probe (clock w) urls in
  let still := pending_part probe (clock w) urls in
  check_generated_images probe w =
    (Ok (nonempty ready), advance w (polled (session w) ready still) urls).
Proof.
  cbv zeta. unfold check_generated_images.
  unfold Run.bind at 1. unfold get_session.
  destruct (pending_urls (session w)) as [|u rest] eqn:Hp.
  - cbn. unfold Run.ret, advance, polled. cbn.
    rewrite app_nil_r, Nat.add_0_r. destruct w as [[k p e g] c l].
    cbn in *. subst p. reflexivity.
  - unfold Run.bind at 1. rewrite check_urls_spec. cbn [app].
    set (ready := ready_part probe (clock w) (u :: rest)).
    set (still := pending_part probe (clock w) (u :: rest)).
    unfold Run.bind at 1. unfold set_pending_urls, put_session.
    cbn [session clock log advance].
    destruct ready as [|first more] eqn:Hr.
    + unfold Run.ret, advance, polled. cbn. reflexivity.
    + unfold Run.bind, set_edited_image, set_generated_images, put_session, Run.ret.
      cbn [session clock log api_key pending_urls edited_image generated_images].
      unfold advance, polled. cbn [nonempty].
      destruct (1 <? Z.of_nat (List.length (first :: more))); reflexivity.
Qed.

End WithProbe.

Section Partition.

Variable probe : nat -> pyval -> result Z.

Lemma partition_permutation urls : forall k,
  Permutation (ready_part probe k urls ++ pending_part probe k urls) urls.
Proof.
  induction urls as [|url rest IH]; intros k; cbn.
  - constructor.
  - destruct (is_ready (probe k url)); cbn.
    + constructor. apply IH.
    + apply Permutation_sym, Permutation_cons_app, Permutation_sym, IH.
Qed.

Lemma ready_part_subseq urls : forall k, Subseq (ready_part probe k urls) urls.
Proof.
  induction urls as [|url rest IH]; intros k; cbn.
  - constructor.
  - destruct (is_ready (probe k url)); constructor; apply IH.
Qed.

Lemma pending_part_subseq urls : forall k, Subseq (pending_part probe k urls) urls.
Proof.
  induction urls as [|url rest IH]; intros k; cbn.
  - constructor.
  - destruct (is_ready (probe k url)); constructor; apply IH.
Qed.

Lemma pending_part_keeps urls : forall k i url,
  nth_error urls i = Some url ->
  is_ready (probe (k + i)%nat url) = false ->
  In url (pending_part probe k urls).
Proof.
  induction urls as [|u rest IH]; intros k i url Hn Hf.
  - destruct i; discriminate.
  - destruct i as [|i]; cbn in Hn.
    + injection Hn as ->. rewrite Nat.add_0_r in Hf. cbn. rewrite Hf. left; reflexivity.
    + cbn. rewrite Nat.add_succ_r in Hf.
      specialize (IH (S k) i url Hn Hf).
      destruct (is_ready (probe k u)); [|right]; exact IH.
Qed.

Lemma ready_part_nonempty urls : forall k,
  nonempty (ready_part probe k urls) = true <->
  exists i url, nth_error urls i = Some url /\ probe (k + i)%nat url = Ok 200.
Proof.
  induction urls as [|u rest IH]; intros k; cbn.
  - split; [discriminate|]. intros (i & url & Hn & _). destruct i; discriminate.
  - destruct (is_ready (probe k u)) eqn:Hr; cbn.
    + split; [intros _|reflexivity]. exists O, u. split; [reflexivity|].
      rewrite Nat.add_0_r. unfold is_ready in Hr.
      destruct (probe k u) as [c|e]; [|discriminate].
      apply Z.eqb_eq in Hr. subst c. reflexivity.
    + rewrite IH. split.
      * intros (i & url & Hn & Hp). exists (S i), url. split; [exact Hn|].
        rewrite Nat.add_succ_r. exact Hp.
      * intros (i & url & Hn & Hp). destruct i as [|i]; cbn in Hn.
        -- injection Hn as ->. rewrite Nat.add_0_r in Hp. rewrite Hp in Hr.
           discriminate.
        -- exists i, url. split; [exact Hn|]. rewrite Nat.add_succ_r in Hp. exact Hp.
Qed.

Lemma ready_part_in urls : forall k url,
  In url (ready_part probe k urls) <->
  exists i, nth_error urls i = Some url /\ probe (k + i)%nat url = Ok 200.
Proof.
  induction urls as [|u rest IH]; intros k url; cbn.
  - split; [intros []|]. intros (i & Hn & _). destruct i; discriminate.
  - assert (Hshift : (exists i, nth_error rest i = Some url /\
                                 probe (S k + i)%nat url = Ok 200) ->
                     exists i, nth_error (u :: rest) i = Some url /\
                               probe (k + i)%nat url = Ok 200).
    { intros (i & Hn & Hp). exists (S i). rewrite Nat.add_succ_r. auto. }
    destruct (is_ready (probe k u)) eqn:Hr.
    + cbn [In]. rewrite IH. split.
      * intros [->|H]; [|apply Hshift, H].
        exists O. rewrite Nat.add_0_r. split; [reflexivity|].
        unfold is_ready in Hr. destruct (probe k url) as [c|e]; [|discriminate].
        apply Z.eqb_eq in Hr. subst c. reflexivity.
      * intros (i & Hn & Hp). destruct i as [|i]; cbn in Hn.
        -- left. congruence.
        -- right. exists i. rewrite Nat.add_succ_r in Hp. auto.
    + rewrite IH. split; [apply Hshift|].
      intros (i & Hn & Hp). destruct i as [|i]; cbn in Hn.
      * injection Hn as ->. rewrite Nat.add_0_r in Hp. rewrite Hp in Hr.
        discriminate.
      * exists i. rewrite Nat.add_succ_r in Hp. auto.
Qed.

(** The head of the ready list is the first-submitted URL whose probe
    answered 200: every URL before it was probed and was not ready. *)
Lemma ready_part_head urls : forall k first rest,
  ready_part probe k urls = first :: rest ->
  exists i,
    nth_error urls i = Some first /\
    probe (k + i)%nat first = Ok 200 /\
    forall j url,
      (j < i)%nat -> nth_error urls j = Some url ->
      is_ready (probe (k + j)%nat url) = false.
Proof.
  induction urls as [|u more IH]; intros k first rest; cbn; [discriminate|].
  destruct (is_ready (probe k u)) eqn:Hr.
  - intros E. injection E as -> _. exists O. rewrite Nat.add_0_r.
    split; [reflexivity|]. split.
    + unfold is_ready in Hr. destruct (probe k first) as [c|e]; [|discriminate].
      apply Z.eqb_eq in Hr. subst c. reflexivity.
    + intros j url Hj. lia.
  - intros E. destruct (IH (S k) first rest E) as (i & Hn & Hp & Hbefore).
    exists (S i). rewrite Nat.add_succ_r. split; [exact Hn|]. split; [exact Hp|].
    intros j url Hj Hnj. destruct j as [|j]; cbn in Hnj.
    + injection Hnj as <-. rewrite Nat.add_0_r. exact Hr.
    + rewrite Nat.add_succ_r. apply (Hbefore j url); [lia|exact Hnj].
Qed.

End Partition.

Lemma ready_part_ext probe probe' urls : forall k,
  (forall j url, is_ready (probe' j url) = is_ready (probe j url)) ->
  ready_part probe' k urls = ready_part probe k urls /\
  pending_part probe' k urls = pending_part probe k urls.
Proof.
  induction urls as [|u rest IH]; intros k Hext; cbn; [split; reflexivity|].
  rewrite Hext. destruct (IH (S k) Hext) as [-> ->]. split; reflexivity.
Qed.

Lemma always_failing_parts probe urls : always_failing probe -> forall k,
  ready_part probe k urls = [] /\ pending_part probe k urls = urls.
Proof.
  intros Hf. induction urls as [|u rest IH]; intros k; cbn; [split; reflexivity|].
  rewrite Hf. destruct (IH (S k)) as [-> ->]. split; reflexivity.
Qed.

Lemma polled_nothing s : polled s [] (pending_urls s) = s.
Proof. destruct s; reflexivity. Qed.

Lemma no_error_among_heads urls : existsb is_error (map EvHead urls) = false.
Proof. induction urls; cbn; auto. Qed.

Lemma count_sleeps_heads urls : count_sleeps (map EvHead urls) = O.
Proof. induction urls; cbn; auto. Qed.

Lemma count_sleeps_app evs1 evs2 :
  count_sleeps (evs1 ++ evs2) = (count_sleeps evs1 + count_sleeps evs2)%nat.
Proof.
  induction evs1 as [|ev rest IH]; cbn; [reflexivity|].
  destruct ev; cbn; rewrite IH; reflexivity.
Qed.

(** With every probe failing, each turn of the loop sleeps, probes every
    pending URL and leaves the session as it was. *)
Lemma auto_check_loop_failing probe : always_failing probe ->
  forall remaining attempt w,
    pending_urls (session w) <> [] ->
    auto_check_loop probe remaining attempt w =
      (Ok (false, (attempt + remaining)%nat),
       {| session := session w;
          clock := (clock w + remaining * List.length (pending_urls (session w)))%nat;
          log := log w ++ List.concat (repeat (round (pending_urls (session w))) remaining) |}).
Proof.
  intros Hf. induction remaining as [|n IH]; intros attempt w Hne.
  - destruct w. cbn. unfold Run.ret. rewrite !Nat.add_0_r, app_nil_r. reflexivity.
  - cbn [auto_check_loop]. run_step. unfold get_session.
    destruct (pending_urls (session w)) as [|u rest] eqn:Hp; [congruence|].
    run_step. unfold time_sleep, emit.
    run_step. rewrite check_generated_images_spec.
    cbn [session clock log]. rewrite Hp.
    destruct (always_failing_parts probe (u :: rest) Hf (clock w)) as [-> ->].
    cbn [nonempty]. rewrite <- Hp, polled_nothing.
    rewrite IH by (cbn; congruence).
    unfold advance. cbn [session clock log repeat List.concat round].
    f_equal.
    + f_equal. f_equal. lia.
    + f_equal.
      * lia.
      * rewrite <- !app_assoc. reflexivity.
Qed.

(** C2 (as amended).  For every non-empty pending set on which every
    readiness probe fails (raises or answers non-200), [auto_check_images]
    with its budget of 3 makes exactly 3 attempts and no fourth: it sleeps
    three times, probes every pending URL once per attempt, leaves the loop
    with [attempt = 3], returns [False], promotes no image and retains the
    pending set (and the rest of the session) intact for a later re-check. *)
Theorem auto_check_images_exhausts_budget :
  forall (probe : nat -> pyval -> result Z) (w : World),
    always_failing probe ->
    pending_urls (session w) <> [] ->
    let urls := pending_urls (session w) in
    let w' := {| session := session w;
                 clock := (clock w + 3 * List.length urls)%nat;
                 log := log w ++ round urls ++ round urls ++ round urls |} in
    auto_check_loop probe max_attempts 0 w = (Ok (false, 3%nat), w') /\
    auto_check_images probe w = (Ok false, w') /\
    count_sleeps (round urls ++ round urls ++ round urls) = 3%nat /\
    edited_image (session w') = edited_image (session w) /\
    pending_urls (session w') = urls.
Proof.
  intros probe w Hf Hne urls w'.
  assert (Hloop : auto_check_loop probe max_attempts 0 w = (Ok (false, 3%nat), w')).
  { unfold max_attempts. rewrite (auto_check_loop_failing probe Hf) by exact Hne.
    subst w' urls. cbn [repeat List.concat]. rewrite app_nil_r. reflexivity. }
  repeat split.
  - exact Hloop.
  - unfold auto_check_images, Run.bind. rewrite Hloop. reflexivity.
  - rewrite !count_sleeps_app. unfold round. cbn [count_sleeps].
    rewrite count_sleeps_heads. reflexivity.
Qed.

(** Two URLs that answer 404 forever: three rounds, nothing promoted. *)
Lemma auto_check_images_exhausts_budget_witness :
  auto_check_images (fun _ _ => Ok 404)
    {| session := {| api_key := None;
                     pending_urls := [PStr "https://a"; PStr "https://b"];
                     edited_image := PNone; generated_images := [] |};
       clock := 0; log := [] |} =
  (Ok false,
   {| session := {| api_key := None;
                    pending_urls := [PStr "https://a"; PStr "https://b"];
                    edited_image := PNone; generated_images := [] |};
      clock := 6;
      log := round [PStr "https://a"; PStr "https://b"] ++
             round [PStr "https://a"; PStr "https://b"] ++
             round [PStr "https://a"; PStr "https://b"] |}).
Proof.
  apply (auto_check_images_exhausts_budget (fun _ _ => Ok 404)
           {| session := {| api_key := None;
                            pending_urls := [PStr "https://a"; PStr "https://b"];
                            edited_image := PNone; generated_images := [] |};
              clock := 0; log := [] |}).
  - intros k url. reflexivity.
  - discriminate.
Defined.

(** C2 as stated fails on the empty job set: the loop guard
    [and st.session_state.pending_urls] ends the loop before the first
    attempt, so zero attempts are made, not three. *)
Lemma auto_check_images_empty_set_makes_no_attempt :
  ~ (forall (probe : nat -> pyval -> result Z) (w : World),
        always_failing probe ->
        fst (auto_check_loop probe max_attempts 0 w) = Ok (false, 3%nat)).
Proof.
  intros H.
  specialize (H (fun _ _ => Raise RequestException)
                {| session := {| api_key := None; pending_urls := [];
                                 edited_image := PNone; generated_images := [] |};
                   clock := 0; log := [] |}
                (fun _ _ => eq_refl)).
  cbn in H. discriminate H.
Qed.

(** C7.  A poll pass never raises and reports no error to the user: it
    probes every pending URL once, in order, whatever the earlier probes
    did.  A probe that raises and a probe that answers with a status other
    than 200 are treated alike (the pass depends on the probes only through
    [is_ready]): the URL stays pending.  The pass returns [True] exactly when
    some probe answered 200. *)
Theorem probe_failures_are_absorbed :
  forall (probe : nat -> pyval -> result Z) (w : World),
    let urls := pending_urls (session w) in
    exists b w',
      check_generated_images probe w = (Ok b, w') /\
      log w' = log w ++ map EvHead urls /\
      existsb is_error (map EvHead urls) = false /\
      pending_urls (session w') = pending_part probe (clock w) urls /\
      (forall i url,
          nth_error urls i = Some url ->
          is_ready (probe (clock w + i)%nat url) = false ->
          In url (pending_urls (session w'))) /\
      (b = true <->
       exists i url,
         nth_error urls i = Some url /\ probe (clock w + i)%nat url = Ok 200) /\
      (forall probe',
          (forall k url, is_ready (probe' k url) = is_ready (probe k url)) ->
          check_generated_images probe' w = check_generated_images probe w).
Proof.
  intros probe w urls.
  eexists _, _. split; [apply check_generated_images_spec|].
  cbn [advance polled session clock log pending_urls]. fold urls.
  split; [reflexivity|]. split; [apply no_error_among_heads|].
  repeat split.
  - apply pending_part_keeps.
  - apply ready_part_nonempty.
  - apply ready_part_nonempty.
  - intros probe' Hext. rewrite !check_generated_images_spec. fold urls.
    destruct (ready_part_ext probe probe' urls (clock w) Hext) as [-> ->].
    reflexivity.
Qed.

(** C10.  The lists [ready_images] and [still_pending] built by a poll
    pass partition the prior pending list by the answers of the probes:
    [ready_images] holds exactly the URLs whose probe answered 200 and
    [still_pending] the others, together they are a permutation of the prior
    list, each keeps the submission order, every pending URL lands in one of
    them and (URLs being distinct) in only one; the stored pending list
    becomes [still_pending]; and when some URL is ready the pass returns
    [True] and the image displayed is the first-submitted URL whose probe
    answered 200. *)
Theorem poll_pass_partitions_pending :
  forall (probe : nat -> pyval -> result Z) (w : World),
    let urls := pending_urls (session w) in
    exists ready still w1 b w',
      check_urls probe urls ([], []) w = (Ok (ready, still), w1) /\
      check_generated_images probe w = (Ok b, w') /\
      ready = ready_part probe (clock w) urls /\
      still = pending_part probe (clock w) urls /\
      (forall url,
          In url ready <->
          exists i, nth_error urls i = Some url /\
                    probe (clock w + i)%nat url = Ok 200) /\
      Permutation (ready ++ still) urls /\
      Subseq ready urls /\ Subseq still urls /\
      (forall url, In url urls <-> In url ready \/ In url still) /\
      (NoDup urls -> forall url, ~ (In url ready /\ In url still)) /\
      pending_urls (session w') = still /\
      (forall first rest,
          ready = first :: rest ->
          b = true /\ edited_image (session w') = first /\
          exists i,
            nth_error urls i = Some first /\
            probe (clock w + i)%nat first = Ok 200 /\
            forall j url,
              (j < i)%nat -> nth_error urls j = Some url ->
              is_ready (probe (clock w + j)%nat url) = false) /\
      (ready = [] ->
       b = false /\ edited_image (session w') = edited_image (session w)).
Proof.
  intros probe w urls.
  pose proof (partition_permutation probe urls (clock w)) as HP.
  eexists _, _, _, _, _.
  split; [apply check_urls_spec|].
  split; [apply check_generated_images_spec|].
  cbn [app advance polled session clock log pending_urls edited_image]. fold urls.
  split; [reflexivity|]. split; [reflexivity|].
  split; [intros url; apply ready_part_in|].
  split; [exact HP|].
  split; [apply ready_part_subseq|].
  split; [apply pending_part_subseq|].
  split.
  { intros url. rewrite <- in_app_iff. split; intros Hin.
    - eapply Permutation_in; [apply Permutation_sym, HP|exact Hin].
    - eapply Permutation_in; [exact HP|exact Hin]. }
  split.
  { intros Hnd url [Hr Hs].
    assert (Hnd' : NoDup (ready_part probe (clock w) urls ++
                          pending_part probe (clock w) urls)).
    { eapply Permutation_NoDup; [apply Permutation_sym, HP|exact Hnd]. }
    apply in_split in Hr. destruct Hr as (l1 & l2 & Hr). rewrite Hr in Hnd'.
    rewrite <- app_assoc in Hnd'. cbn in Hnd'.
    apply NoDup_remove_2 in Hnd'. apply Hnd'.
    rewrite !in_app_iff. right. right. exact Hs. }
  split; [reflexivity|].
  split.
  - intros first rest E. rewrite E. split; [reflexivity|]. split; [reflexivity|].
    apply (ready_part_head probe urls (clock w) first rest E).
  - intros ->. split; reflexivity.
Qed.

(** Three pending URLs, of which the second and the third answer 200: the
    pass returns [True], displays the second and keeps the first pending. *)
Lemma poll_pass_partitions_pending_witness :
  exists w',
    check_generated_images
      (fun k _ => if Nat.eqb k 0 then Ok 404 else Ok 200)
      {| session := {| api_key := None;
                       pending_urls := [PStr "a"; PStr "b"; PStr "c"];
                       edited_image := PNone; generated_images := [] |};
         clock := 0; log := [] |} = (Ok true, w') /\
    edited_image (session w') = PStr "b" /\
    pending_urls (session w') = [PStr "a"].
Proof.
  destruct (poll_pass_partitions_pending
              (fun k _ => if Nat.eqb k 0 then Ok 404 else Ok 200)
              {| session := {| api_key := None;
                               pending_urls := [PStr "a"; PStr "b"; PStr "c"];
                               edited_image := PNone; generated_images := [] |};
                 clock := 0; log := [] |})
    as (ready & still & w1 & b & w' & _ & Hrun & Hready & Hstill & _ & _ & _
        & _ & _ & _ & Hpending & Hfirst & _).
  cbn in Hready, Hstill. subst ready still.
  destruct (Hfirst (PStr "b") [PStr "c"] eq_refl) as (Hb & Hedit & _).
  subst b. exists w'. repeat split; assumption.
Defined.

End PollerFacts.

(** ** ResultNormalizer *)

Module NormalizerFacts.
Import Py Run Normalizer.

Lemma slice_list_firstn {A} (l : list A) n :
  0 <= n -> slice_list l n = firstn (Z.to_nat n) l.
Proof.
  intros Hn. unfold slice_list. destruct (Z.ltb_spec n 0); [lia|reflexivity].
Qed.


Lemma add_item_app urls item urls' :
  add_item urls item = Ok urls' -> urls' = urls ++ item_references item.
Proof.
  unfold item_references, add_item, extend.
  destruct item as [| | | | |items|entries]; cbn;
    try (intros E; injection E as <-; rewrite app_nil_r; reflexivity).
  - intros E; injection E as <-; reflexivity.
  - destruct (dict_get "urls" entries) as [v|].
    + destruct (iter_values v) as [refs|e]; cbn; [|discriminate].
      intros E; injection E as <-; reflexivity.
    + intros E; injection E as <-; rewrite app_nil_r; reflexivity.
Qed.

Lemma add_item_total urls item :
  item_ok item = true -> add_item urls item = Ok (urls ++ item_references item).
Proof.
  unfold item_ok, item_references, add_item, extend.
  destruct item as [| | | | |items|entries]; cbn;
    rewrite ?app_nil_r; try reflexivity.
  destruct (dict_get "urls" entries) as [v|]; [|rewrite app_nil_r; reflexivity].
  destruct (iter_values v) as [refs|e]; cbn; [reflexivity|discriminate].
Qed.

(** The early [break] does not change the first [n] accumulated URLs. *)
Lemma accumulate_prefix n items : forall urls result_urls,
  accumulate items urls n = Ok result_urls ->
  firstn (Z.to_nat n) result_urls =
  firstn (Z.to_nat n) (urls ++ flat_map item_references items).
Proof.
  induction items as [|item rest IH]; intros urls out E; cbn in E.
  - injection E as <-. cbn. rewrite app_nil_r. reflexivity.
  - destruct (add_item urls item) as [urls'|e] eqn:Ha; cbn in E; [|discriminate].
    apply add_item_app in Ha. cbn [flat_map]. rewrite app_assoc, <- Ha.
    destruct (Z.geb_spec (Z.of_nat (List.length urls')) n) as [Hge|Hlt].
    + injection E as <-. rewrite firstn_app.
      replace (Z.to_nat n - List.length urls')%nat with O by lia.
      cbn. rewrite app_nil_r. reflexivity.
    + apply IH. exact E.
Qed.

Lemma accumulate_total n items : forall urls,
  forallb item_ok items = true ->
  exists result_urls, accumulate items urls n = Ok result_urls.
Proof.
  induction items as [|item rest IH]; intros urls Hok; cbn.
  - eexists; reflexivity.
  - cbn in Hok. apply andb_prop in Hok. destruct Hok as [Hi Hr].
    rewrite (add_item_total urls item Hi). cbn.
    destruct (Z.of_nat _ >=? n); [eexists; reflexivity|apply IH, Hr].
Qed.




Lemma dict_get_truthy key entries v :
  dict_get key entries = Some v -> truthy (PDict entries) = true.
Proof. destruct entries; [discriminate|reflexivity]. Qed.

(** C4.  The handler of a synchronous response reports "No valid result
    format" only for a response that is not a dictionary.  A non-empty
    dictionary without any of the recognized fields gets past the
    [if]/[elif] chain, which has no [else]: nothing is reported, no
    exception is raised and the session is left as it was. *)
Theorem unrecognized_dictionary_is_silent :
  forall (entries : list (string * pyval)) (w : World),
    entries <> [] ->
    recognized (PDict entries) = false ->
    generate_images_clicked (Ok (PDict entries)) w =
      (Ok tt, {| session := session w; clock := clock w;
                 log := log w ++ [debug_dump (PDict entries)] |}).
Proof.
  intros entries w Hne Hrec.
  unfold recognized in Hrec.
  unfold generate_images_clicked, try_except, Run.bind, lift.
  destruct entries as [|entry rest]; [congruence|]. cbn [truthy].
  unfold show_result, Run.bind, st_write, emit. cbn [session clock log].
  destruct (dict_get "result_url" (entry :: rest)); [discriminate|].
  destruct (dict_get "result_urls" (entry :: rest)); [discriminate|].
  destruct (dict_get "result" (entry :: rest)); [discriminate|].
  reflexivity.
Qed.

Lemma unrecognized_dictionary_is_silent_witness :
  generate_images_clicked (Ok (PDict [("status", PStr "ok")]))
    {| session := {| api_key := Some "key"; pending_urls := [];
                     edited_image := PNone; generated_images := [] |};
       clock := 0; log := [] |} =
  (Ok tt,
   {| session := {| api_key := Some "key"; pending_urls := [];
                    edited_image := PNone; generated_images := [] |};
      clock := 0;
      log := [debug_dump (PDict [("status", PStr "ok")])] |}).
Proof.
  apply (unrecognized_dictionary_is_silent [("status", PStr "ok")]
           {| session := {| api_key := Some "key"; pending_urls := [];
                            edited_image := PNone; generated_images := [] |};
              clock := 0; log := [] |}).
  - discriminate.
  - reflexivity.
Defined.

(** The sibling case that does report: a truthy response that is not a
    dictionary. *)
Lemma non_dictionary_is_reported w n :
  n <> 0 ->
  generate_images_clicked (Ok (PInt n)) w =
    (Ok tt, {| session := session w; clock := clock w;
               log := log w ++
                 [debug_dump (PInt n);
                  EvError "No valid result format found in the API response."
                          None] |}).
Proof.
  intros Hn. unfold generate_images_clicked, try_except, Run.bind, lift.
  cbn [truthy]. destruct (Z.eqb_spec n 0); [contradiction|]. cbn [negb].
  unfold show_result, Run.bind, st_write, st_error, emit. cbn [session clock log].
  rewrite <- app_assoc. reflexivity.
Qed.

(** The nested shape with list-valued items: the first element of the
    first non-empty item is displayed, also when it is the only one. *)
Example nested_items_show_first_element :
  forall (w : World) (x y : pyval),
    show_first_item [PList []; PList [x; y]] w =
      (Ok tt, {| session := displaying (session w) x; clock := clock w;
                 log := log w ++ [EvSuccess image_generated] |}) /\
    show_first_item [PList [x]] w =
      (Ok tt, {| session := displaying (session w) x; clock := clock w;
                 log := log w ++ [EvSuccess image_generated] |}).
Proof. intros w x y. split; reflexivity. Qed.

(** C8.  Shape resolution is an ordered fallback.  When [result_url] is
    present its value is displayed, whatever else the response holds.  When
    it is absent and [result_urls] is present, the outcome (the first
    element displayed, or the error raised by taking it) is determined by
    the value of [result_urls] alone, whatever [result] holds. *)
Theorem shape_resolution_is_ordered :
  forall (entries : list (string * pyval)) (w : World),
    (forall v,
        dict_get "result_url" entries = Some v ->
        generate_images_clicked (Ok (PDict entries)) w =
          (Ok tt, {| session := displaying (session w) v; clock := clock w;
                     log := log w ++ [debug_dump (PDict entries);
                                      EvSuccess image_generated] |})) /\
    (forall v,
        dict_get "result_url" entries = None ->
        dict_get "result_urls" entries = Some v ->
        generate_images_clicked (Ok (PDict entries)) w =
          match subscript0 v with
          | Ok first =>
              (Ok tt, {| session := displaying (session w) first;
                         clock := clock w;
                         log := log w ++ [debug_dump (PDict entries);
                                          EvSuccess image_generated] |})
          | Raise e =>
              (Ok tt, {| session := session w; clock := clock w;
                         log := log w ++
                           [debug_dump (PDict entries);
                            EvError "Error generating images: " (Some e);
                            EvWrite "Full error:" (ShownError e)] |})
          end).
Proof.
  intros entries w. split.
  - intros v E. unfold generate_images_clicked, try_except, Run.bind, lift.
    rewrite (dict_get_truthy _ _ _ E).
    unfold show_result, Run.bind, st_write, emit. rewrite E.
    unfold set_edited_image, put_session, st_success, emit.
    cbn [session clock log]. rewrite <- app_assoc. reflexivity.
  - intros v E1 E2. unfold generate_images_clicked, try_except, Run.bind, lift.
    rewrite (dict_get_truthy _ _ _ E2).
    unfold show_result, Run.bind, st_write, emit. rewrite E1, E2.
    unfold lift. destruct (subscript0 v) as [first|e].
    + unfold set_edited_image, put_session, st_success, emit.
      cbn [session clock log]. rewrite <- app_assoc. reflexivity.
    + unfold st_error, st_write, emit. cbn [session clock log].
      rewrite <- !app_assoc. reflexivity.
Qed.

End NormalizerFacts.

(** ** RequestAssembler *)

Module LifestyleFacts.
Import Lifestyle.

Lemma padding_values_arg_substitute f v :
  form_placement f <> ManualPadding ->
  padding_values_arg f v = Ok (Some [0; 0; 0; 0]).
Proof.
  intros Hp. unfold padding_values_arg.
  destruct (form_placement f); try reflexivity. congruence.
Qed.

Lemma foreground_args f :
  (form_placement f = CustomCoordinates ->
   foreground_image_size_arg f (render f) =
     Ok (Some [fst (form_product_size f); snd (form_product_size f)]) /\
   foreground_image_location_arg f (render f) =
     Ok (Some [fst (form_product_position f); snd (form_product_position f)])) /\
  (form_placement f <> CustomCoordinates ->
   foreground_image_size_arg f (render f) = Ok None /\
   foreground_image_location_arg f (render f) = Ok None).
Proof.
  unfold foreground_image_size_arg, foreground_image_location_arg, render.
  destruct (form_padding f) as [[[l r] t] b].
  split.
  - intros ->. split; reflexivity.
  - intros Hp. destruct (form_placement f); try (split; reflexivity). congruence.
Qed.

(** The fields both calls fill alike. *)
Lemma shot_args_fields key image_data reference_image f args :
  lifestyle_shot_by_text_args key image_data f = Ok args \/
  lifestyle_shot_by_image_args key image_data reference_image f = Ok args ->
  padding_values_arg f (render f) = Ok (arg_padding_values args) /\
  foreground_image_size_arg f (render f) = Ok (arg_foreground_image_size args) /\
  foreground_image_location_arg f (render f) =
    Ok (arg_foreground_image_location args).
Proof.
  unfold lifestyle_shot_by_text_args, lifestyle_shot_by_image_args.
  cbv zeta.
  destruct (manual_placements f (render f)) as [ps|e]; cbn [rbind];
    [|intros [E|E]; discriminate].
  destruct (shot_size_arg f (render f)) as [ss|e]; cbn [rbind];
    [|intros [E|E]; discriminate].
  destruct (padding_values_arg f (render f)) as [pv|e]; cbn [rbind].
  2:{ intros [E|E]; [|discriminate].
      destruct (if negb (form_fast_mode f) then _ else _); discriminate. }
  destruct (foreground_image_size_arg f (render f)) as [fs|e]; cbn [rbind].
  2:{ intros [E|E]; [|discriminate].
      destruct (if negb (form_fast_mode f) then _ else _); discriminate. }
  destruct (foreground_image_location_arg f (render f)) as [fl|e]; cbn [rbind].
  2:{ intros [E|E]; [|discriminate].
      destruct (if negb (form_fast_mode f) then _ else _); discriminate. }
  intros [E|E].
  - destruct (if negb (form_fast_mode f) then _ else _); cbn [rbind] in E;
      [|discriminate].
    injection E as <-. repeat split.
  - injection E as <-. repeat split.
Qed.

(** C9 (as amended).  In every lifestyle-shot call whose placement type is
    not Manual Padding the padding group is passed as the substitute value
    [[0, 0, 0, 0]], not as [None]; the Custom Coordinates group (foreground
    image size and location) carries the entered values when the placement
    type is Custom Coordinates and is [None] otherwise. *)
Theorem lifestyle_padding_is_substituted :
  forall (key : option string) (image_data reference_image : list Byte.byte)
         (f : Form) (args : ShotArgs),
    lifestyle_shot_by_text_args key image_data f = Ok args \/
    lifestyle_shot_by_image_args key image_data reference_image f = Ok args ->
    form_placement f <> ManualPadding ->
    arg_padding_values args = Some [0; 0; 0; 0] /\
    (form_placement f = CustomCoordinates ->
     arg_foreground_image_size args =
       Some [fst (form_product_size f); snd (form_product_size f)] /\
     arg_foreground_image_location args =
       Some [fst (form_product_position f); snd (form_product_position f)]) /\
    (form_placement f <> CustomCoordinates ->
     arg_foreground_image_size args = None /\
     arg_foreground_image_location args = None).
Proof.
  intros key image_data reference_image f args Hcall Hp.
  destruct (shot_args_fields _ _ _ _ _ Hcall) as (Hpad & Hsize & Hloc).
  rewrite (padding_values_arg_substitute f _ Hp) in Hpad.
  destruct (foreground_args f) as [Hc Hn].
  split; [congruence|]. split.
  - intros Hcc. destruct (Hc Hcc) as [E1 E2]. split; congruence.
  - intros Hcc. destruct (Hn Hcc) as [E1 E2]. split; congruence.
Qed.

Lemma lifestyle_padding_is_substituted_witness :
  exists args,
    lifestyle_shot_by_text_args (Some "key") [Byte.x01]
      (default_form CustomCoordinates) = Ok args /\
    arg_padding_values args = Some [0; 0; 0; 0] /\
    arg_foreground_image_size args = Some [500; 500] /\
    arg_foreground_image_location args = Some [0; 0].
Proof.
  eexists. split; [reflexivity|].
  destruct (lifestyle_padding_is_substituted (Some "key") [Byte.x01] []
              (default_form CustomCoordinates) _ (or_introl eq_refl))
    as (Hpad & Hc & _).
  - discriminate.
  - destruct (Hc eq_refl) as [E1 E2]. repeat split; assumption.
Defined.

(** Under Manual Placement and Manual Padding the shot-size widgets are
    not rendered, and reading [shot_width] for the [shot_size] argument
    raises before any call is made. *)
Lemma manual_modes_raise key image_data f :
  form_placement f = ManualPlacement \/ form_placement f = ManualPadding ->
  lifestyle_shot_by_text_args key image_data f =
    Raise (UnboundLocalError "shot_width").
Proof.
  unfold lifestyle_shot_by_text_args, manual_placements, shot_size_arg, render.
  destruct (form_padding f) as [[[l r] t] b].
  intros [-> | ->]; reflexivity.
Qed.

(** C9 as stated fails: with placement type Original a request is
    assembled and its padding group is not [None]. *)
Lemma lifestyle_padding_is_not_nulled :
  ~ (forall (key : option string) (image_data : list Byte.byte)
            (f : Form) (args : ShotArgs),
        lifestyle_shot_by_text_args key image_data f = Ok args ->
        form_placement f <> ManualPadding ->
        arg_padding_values args = None).
Proof.
  intros H.
  specialize (H (Some "key") [Byte.x01] (default_form Original) _ eq_refl).
  cbn in H. assert (Hne : Original <> ManualPadding) by discriminate.
  specialize (H Hne). discriminate H.
Qed.

End LifestyleFacts.

(** ** Image expansion *)

Module ExpansionFacts.
Import Run PyFloat Geometry Expansion.

Lemma posts_app evs1 evs2 : posts (evs1 ++ evs2) = posts evs1 ++ posts evs2.
Proof. unfold posts. apply flat_map_app. Qed.

Section WithRemote.

Variable remote : ExpansionPayload -> result HttpResponse.

(** With image data at hand [expand_image] always sends its request, and
    sends it once; the arguments reach the payload unchanged. *)
Lemma expand_image_sends key image_data canvas size location sync w :
  image_data <> [] ->
  let data := payload_of image_data canvas size location sync in
  expand_image remote key image_data canvas size location sync w =
    (outcome_of remote data,
     {| session := session w; clock := clock w;
        log := log w ++ [EvPost endpoint key data] |}).
Proof.
  intros Hne data. unfold expand_image.
  destruct image_data as [|b rest]; [congruence|].
  fold (payload_of (b :: rest) canvas size location sync). fold data.
  unfold try_except, Run.bind, requests_post, outcome_of.
  destruct (remote data) as [response|e]; [|reflexivity].
  unfold raise_for_status.
  destruct ((400 <=? status_code response) && (status_code response <? 600))%bool;
    [reflexivity|].
  unfold Run.ret, lift. destruct (json response); reflexivity.
Qed.

Lemma expand_image_rejects_empty key canvas size location sync w :
  expand_image remote key [] canvas size location sync w = (Raise ValueError, w).
Proof. reflexivity. Qed.

(** C5 (as amended).  The expansion path does not validate the edge
    ratios.  [expand_image] rejects one input before dispatch, empty image
    data; otherwise, with an API key set, whenever the placement arithmetic
    yields a placement (negative ratios included) the "Expand Image" button
    dispatches exactly one request, and that request carries the computed
    canvas size, original size and original location. *)
Theorem expansion_dispatches_without_ratio_check :
  forall (image_bytes : list Byte.byte) (original_width original_height : Z)
         (left right top bottom : pyfloat) (p : Placement) (w : World),
    key_missing (api_key (session w)) = false ->
    image_bytes <> [] ->
    expansion_placement original_width original_height left right top bottom
      = Ok p ->
    posts (log (snd (expand_clicked remote image_bytes original_width
                       original_height left right top bottom w))) =
    posts (log w) ++
      [payload_of image_bytes (canvas_size p) (original_image_size p)
                  (original_image_location p) true] /\
    (forall key canvas size location sync w0,
        expand_image remote key [] canvas size location sync w0 =
          (Raise ValueError, w0)).
Proof.
  intros image_bytes W H l r t b p w Hkey Hne Hp.
  split; [|intros; apply expand_image_rejects_empty].
  unfold expand_clicked. unfold Run.bind at 1. unfold get_session.
  rewrite Hkey. unfold try_except. unfold Run.bind at 1. unfold lift at 1.
  rewrite Hp.
  run_write. run_write. run_write.
  run_step. rewrite expand_image_sends by exact Hne.
  cbn [session clock log].
  destruct (outcome_of remote _) as [response|e].
  - unfold Run.bind, st_write, emit, Run.ret. cbn [snd log].
    rewrite !posts_app. cbn. rewrite !app_nil_r. reflexivity.
  - unfold Run.bind, st_error, emit, Run.ret. cbn [snd log].
    rewrite !posts_app. cbn. rewrite !app_nil_r. reflexivity.
Qed.

End WithRemote.

(** A service that answers every request with a result URL. *)
Lemma expansion_dispatches_without_ratio_check_witness :
  posts (log (snd (expand_clicked
    (fun _ => Ok {| status_code := 200;
                    json := Ok (PDict [("result_url", PStr "https://r")]) |})
    [Byte.x01] 800 600 (SFopp (decimal 5 10)) (decimal 5 10) fzero fzero
    {| session := {| api_key := Some "key"; pending_urls := [];
                     edited_image := PNone; generated_images := [] |};
       clock := 0; log := [] |}))) =
  [payload_of [Byte.x01] (800, 600) (800, 600) (-400, 0) true].
Proof.
  apply (expansion_dispatches_without_ratio_check
           (fun _ => Ok {| status_code := 200;
                           json := Ok (PDict [("result_url", PStr "https://r")]) |})
           [Byte.x01] 800 600 (SFopp (decimal 5 10)) (decimal 5 10) fzero fzero
           {| canvas_size := (800, 600); original_image_size := (800, 600);
              original_image_location := (-400, 0) |}
           {| session := {| api_key := Some "key"; pending_urls := [];
                            edited_image := PNone; generated_images := [] |};
              clock := 0; log := [] |}).
  - reflexivity.
  - discriminate.
  - vm_compute. reflexivity.
Defined.

(** C5 as stated fails: with left = -0.5 on an 800x600 image no error is
    raised before dispatch; the request is sent, with the original placed
    at x = -400. *)
Lemma negative_ratio_is_dispatched :
  ~ (forall (remote : ExpansionPayload -> result HttpResponse)
            (image_bytes : list Byte.byte) (original_width original_height : Z)
            (left right top bottom : pyfloat) (w : World),
        fltb left fzero = true \/ fltb right fzero = true \/
        fltb top fzero = true \/ fltb bottom fzero = true ->
        posts (log (snd (expand_clicked remote image_bytes original_width
                           original_height left right top bottom w))) =
        posts (log w)).
Proof.
  intros H.
  specialize (H (fun _ => Ok {| status_code := 200;
                                json := Ok (PDict [("result_url", PStr "https://r")]) |})
                [Byte.x01] 800 600 (SFopp (decimal 5 10)) (decimal 5 10)
                fzero fzero
                {| session := {| api_key := Some "key"; pending_urls := [];
                                 edited_image := PNone; generated_images := [] |};
                   clock := 0; log := [] |}
                (or_introl eq_refl)).
  vm_compute in H. discriminate H.
Qed.

End ExpansionFacts.

(* ================================================================== *)
(** * Part III: further properties of the code                          *)
(* ================================================================== *)

(** ** The polling loop under arbitrary probe behaviour *)

Module PollerLoopFacts.
Import Run Poller PollerFacts.

Lemma Subseq_refl {A} (l : list A) : Subseq l l.
Proof. induction l; constructor; assumption. Qed.

Lemma Subseq_in {A} (l1 l2 : list A) x : Subseq l1 l2 -> In x l1 -> In x l2.
Proof.
  induction 1 as [|y l1 l2 _ IH|y l1 l2 _ IH]; cbn; intros Hin.
  - exact Hin.
  - destruct Hin as [->|Hin]; [left; reflexivity|right; apply IH, Hin].
  - right. apply IH, Hin.
Qed.

Section WithProbe.

Variable probe : nat -> pyval -> result Z.

Lemma partition_lengths urls : forall k,
  (List.length (ready_part probe k urls) +
   List.length (pending_part probe k urls) = List.length urls)%nat.
Proof.
  intros k. rewrite <- length_app.
  apply Permutation_length, partition_permutation.
Qed.

Lemma no_ready_keeps_all urls : forall k,
  ready_part probe k urls = [] -> pending_part probe k urls = urls.
Proof.
  induction urls as [|u rest IH]; intros k; cbn; [reflexivity|].
  destruct (is_ready (probe k u)); [discriminate|].
  intros E. rewrite (IH _ E). reflexivity.
Qed.

(** A poll pass changes the session only by resolving a job: when it
    returns [False] the session is exactly as before; when it returns
    [True] the image now displayed was one of the pending URLs, the pending
    list has become a strictly shorter subsequence of the old one, and the
    API key is untouched.  It never raises. *)
Theorem poll_pass_resolves_or_keeps :
  forall (w : World),
  exists b w',
    check_generated_images probe w = (Ok b, w') /\
    (b = false -> session w' = session w) /\
    (b = true ->
     In (edited_image (session w')) (pending_urls (session w)) /\
     Subseq (pending_urls (session w')) (pending_urls (session w)) /\
     (List.length (pending_urls (session w')) <
      List.length (pending_urls (session w)))%nat /\
     api_key (session w') = api_key (session w)).
Proof.
  intros w.
  eexists _, _. split; [apply check_generated_images_spec|].
  cbn [advance session clock log].
  set (urls := pending_urls (session w)).
  pose proof (partition_lengths urls (clock w)) as HL.
  pose proof (ready_part_subseq probe urls (clock w)) as HS.
  pose proof (no_ready_keeps_all urls (clock w)) as HN.
  destruct (ready_part probe (clock w) urls) as [|first more].
  - split; [|discriminate].
    intros _. rewrite (HN eq_refl). subst urls. apply polled_nothing.
  - split; [discriminate|]. intros _.
    cbn [polled edited_image pending_urls api_key]. repeat split.
    + eapply Subseq_in; [exact HS|left; reflexivity].
    + apply pending_part_subseq.
    + cbn in HL. lia.
Qed.

Lemma count_sleeps_round w urls :
  count_sleeps ((log w ++ [EvSleep 2]) ++ map EvHead urls) =
  S (count_sleeps (log w)).
Proof.
  rewrite !count_sleeps_app, count_sleeps_heads. cbn. lia.
Qed.

(** The loop of [auto_check_images], whatever the probes answer. *)
Lemma auto_check_loop_outcome : forall remaining attempt w,
  exists b attempt' w',
    auto_check_loop probe remaining attempt w = (Ok (b, attempt'), w') /\
    (attempt <= attempt' <= attempt + remaining)%nat /\
    (count_sleeps (log w') <= count_sleeps (log w) + remaining)%nat /\
    (b = false -> session w' = session w) /\
    (b = true ->
     In (edited_image (session w')) (pending_urls (session w)) /\
     Subseq (pending_urls (session w')) (pending_urls (session w)) /\
     (List.length (pending_urls (session w')) <
      List.length (pending_urls (session w)))%nat /\
     exists evs, log w' = evs ++ [EvSuccess "✨ Image ready!"]).
Proof.
  induction remaining as [|n IH]; intros attempt w.
  - exists false, attempt, w. cbn. repeat split; try lia; discriminate.
  - cbn [auto_check_loop]. run_step. unfold get_session.
    destruct (pending_urls (session w)) as [|u rest] eqn:Hp.
    + exists false, attempt, w. repeat split; try lia; discriminate.
    + run_step. unfold time_sleep, emit. run_step.
      rewrite check_generated_images_spec. cbn [session clock log]. rewrite Hp.
      set (urls := u :: rest).
      pose proof (partition_lengths urls (clock w)) as HL.
      pose proof (ready_part_subseq probe urls (clock w)) as HS.
      pose proof (no_ready_keeps_all urls (clock w)) as HN.
      destruct (ready_part probe (clock w) urls) as [|first more]; cbn [nonempty].
      * rewrite (HN eq_refl). subst urls. rewrite <- Hp, polled_nothing.
        match goal with
        | |- context [auto_check_loop probe n (S attempt) ?w0] =>
            destruct (IH (S attempt) w0) as (b & a' & w' & E & Ha & Hs & Hf & Ht)
        end.
        exists b, a', w'. rewrite E. cbn [session advance log] in *.
        rewrite count_sleeps_round in Hs.
        repeat split; try lia; try assumption; apply Ht; assumption.
      * eexists true, attempt, _. split; [reflexivity|].
        unfold st_success, emit, advance. cbn [session clock log polled
          edited_image pending_urls].
        repeat split; try lia; try discriminate.
        -- rewrite count_sleeps_app, count_sleeps_round. cbn. lia.
        -- eapply Subseq_in; [exact HS|left; reflexivity].
        -- apply pending_part_subseq.
        -- cbn in HL. cbn. lia.
        -- eexists. reflexivity.
Qed.

(** [auto_check_images] never raises and never makes more than three
    attempts (three sleeps), whatever the probes answer.  When it returns
    [False] the session is exactly as it found it; when it returns [True]
    the image now displayed is one of the URLs that were pending, the
    pending list is a strictly shorter subsequence of the old one, and the
    last thing shown is the "Image ready!" message. *)
Theorem auto_check_images_outcome :
  forall (w : World),
  exists b w',
    auto_check_images probe w = (Ok b, w') /\
    (count_sleeps (log w') <= count_sleeps (log w) + 3)%nat /\
    (b = false -> session w' = session w) /\
    (b = true ->
     In (edited_image (session w')) (pending_urls (session w)) /\
     Subseq (pending_urls (session w')) (pending_urls (session w)) /\
     (List.length (pending_urls (session w')) <
      List.length (pending_urls (session w)))%nat /\
     exists evs, log w' = evs ++ [EvSuccess "✨ Image ready!"]).
Proof.
  intros w. unfold auto_check_images, Run.bind.
  destruct (auto_check_loop_outcome max_attempts 0 w)
    as (b & a' & w' & E & _ & Hs & Hf & Ht).
  rewrite E. exists b, w'. unfold Run.ret. cbn [fst].
  repeat split; assumption || (apply Ht; assumption).
Qed.

End WithProbe.

End PollerLoopFacts.

(** ** More on the response shapes *)

Module ResponseFacts.
Import Py Run Normalizer LifestyleResult NormalizerFacts.

Lemma accumulate_stops n items rest : forall urls,
  forallb item_ok items = true ->
  Z.of_nat (List.length urls) < n ->
  n <= Z.of_nat (List.length (urls ++ flat_map item_references items)) ->
  accumulate (items ++ rest) urls n = accumulate items urls n.
Proof.
  induction items as [|item more IH]; intros urls Hok Hlt Hlen.
  - cbn in Hlen. rewrite app_nil_r in Hlen. lia.
  - cbn in Hok. apply andb_prop in Hok. destruct Hok as [Hi Hm].
    cbn [app accumulate]. rewrite (add_item_total urls item Hi). cbn [rbind].
    destruct (Z.geb_spec (Z.of_nat (List.length (urls ++ item_references item))) n)
      as [Hge|Hsmall]; [reflexivity|].
    apply IH; [exact Hm|exact Hsmall|].
    cbn [flat_map] in Hlen. rewrite app_assoc in Hlen. exact Hlen.
Qed.

(** Once the requested number of URLs has been gathered the loop is left
    and the remaining items are not looked at: whatever follows the items
    that supply the first [n] URLs, even an item the loop could not digest,
    changes nothing and raises nothing. *)
Theorem collect_urls_ignores_items_after_break :
  forall (n : Z) (items rest : list pyval),
    1 <= n ->
    forallb item_ok items = true ->
    n <= Z.of_nat (List.length (flat_map item_references items)) ->
    collect_urls (PDict [("result", PList (items ++ rest))]) n =
    Ok (firstn (Z.to_nat n) (flat_map item_references items)).
Proof.
  intros n items rest Hn Hok Hlen.
  unfold collect_urls. cbn [dict_get String.eqb Ascii.eqb Bool.eqb].
  change (dict_get "urls" [("result", PList (items ++ rest))]) with (@None pyval).
  change (dict_get "result" [("result", PList (items ++ rest))])
    with (Some (PList (items ++ rest))).
  cbv iota beta.
  rewrite (accumulate_stops n items rest []) by (cbn; try assumption; lia).
  destruct (accumulate_total n items [] Hok) as (out & Hout).
  rewrite Hout. cbn [rbind].
  rewrite slice_list_firstn by lia.
  apply accumulate_prefix in Hout. cbn [app] in Hout. rewrite Hout. reflexivity.
Qed.

(** Two URLs are wanted and the first item supplies them; the second item
    carries a number where its URL list should be. *)
Lemma collect_urls_ignores_items_after_break_witness :
  collect_urls
    (PDict [("result", PList ([PDict [("urls", PList [PStr "a"; PStr "b"])]] ++
                              [PDict [("urls", PInt 7)]]))]) 2 =
  Ok [PStr "a"; PStr "b"].
Proof.
  apply (collect_urls_ignores_items_after_break 2
           [PDict [("urls", PList [PStr "a"; PStr "b"])]]
           [PDict [("urls", PInt 7)]]).
  - lia.
  - reflexivity.
  - cbn. lia.
Defined.

(** Without the early exit the same malformed item is an error. *)
Example collect_urls_meets_bad_item :
  collect_urls
    (PDict [("result", PList [PDict [("urls", PList [PStr "a"; PStr "b"])];
                              PDict [("urls", PInt 7)]])]) 3 =
  Raise TypeError.
Proof. reflexivity. Qed.

(** The Lifestyle Shot tabs handle a synchronous response exactly as the
    Generate Images tab does whenever one of the three shapes [result_url],
    [result_urls], list-valued [result] is present, and also when the
    dictionary has no top-level [urls]. *)
Theorem lifestyle_sync_agrees_with_generate :
  forall (entries : list (string * pyval)) (w : World),
    dict_get "result_url" entries <> None \/
    dict_get "result_urls" entries <> None \/
    (exists items, dict_get "result" entries = Some (PList items)) \/
    dict_get "urls" entries = None ->
    lifestyle_sync_result (PDict entries) w = show_result (PDict entries) w.
Proof.
  intros entries w H.
  unfold lifestyle_sync_result, show_result, show_sync_result.
  destruct (dict_get "result_url" entries) as [v1|]; [reflexivity|].
  destruct (dict_get "result_urls" entries) as [v2|]; [reflexivity|].
  destruct (dict_get "result" entries) as [[| | | | |items|]|] eqn:Hr;
    try reflexivity;
    destruct H as [H|[H|[(items' & H)|H]]]; try congruence;
    rewrite H; reflexivity.
Qed.

Lemma lifestyle_sync_agrees_with_generate_witness :
  lifestyle_sync_result (PDict [("result_urls", PList [PStr "https://r"])])
    {| session := {| api_key := None; pending_urls := [];
                     edited_image := PNone; generated_images := [] |};
       clock := 0; log := [] |} =
  show_result (PDict [("result_urls", PList [PStr "https://r"])])
    {| session := {| api_key := None; pending_urls := [];
                     edited_image := PNone; generated_images := [] |};
       clock := 0; log := [] |}.
Proof.
  apply (lifestyle_sync_agrees_with_generate
           [("result_urls", PList [PStr "https://r"])]).
  right. left. discriminate.
Defined.

(** Where the two handlers part: a dictionary whose only usable field is a
    top-level [urls] shows its first element in the Lifestyle Shot tabs (or
    raises what taking that element raises) and is passed over in silence by
    the Generate Images tab; a response that is not a dictionary is passed
    over in silence by the Lifestyle Shot tabs. *)
Theorem lifestyle_sync_fourth_shape :
  forall (entries : list (string * pyval)) (v : pyval) (w : World),
    recognized (PDict entries) = false ->
    dict_get "urls" entries = Some v ->
    lifestyle_sync_result (PDict entries) w =
      match subscript0 v with
      | Ok first =>
          (Ok tt, {| session := displaying (session w) first; clock := clock w;
                     log := log w ++ [debug_dump (PDict entries);
                                      EvSuccess image_generated] |})
      | Raise e =>
          (Raise e, {| session := session w; clock := clock w;
                       log := log w ++ [debug_dump (PDict entries)] |})
      end /\
    show_result (PDict entries) w =
      (Ok tt, {| session := session w; clock := clock w;
                 log := log w ++ [debug_dump (PDict entries)] |}) /\
    (forall response,
        match response with
        | PDict _ => True
        | _ => lifestyle_sync_result response w =
               (Ok tt, {| session := session w; clock := clock w;
                          log := log w ++ [debug_dump response] |})
        end).
Proof.
  intros entries v w Hrec Hu. unfold recognized in Hrec.
  unfold lifestyle_sync_result, show_result, show_sync_result.
  destruct (dict_get "result_url" entries); [discriminate|].
  destruct (dict_get "result_urls" entries); [discriminate|].
  destruct (dict_get "result" entries); [discriminate|].
  rewrite Hu. unfold Run.bind, st_write, emit, lift. cbn [session clock log].
  split; [|split; [reflexivity|intros []; exact I || reflexivity]].
  destruct (subscript0 v) as [first|e]; [|reflexivity].
  unfold set_edited_image, put_session, st_success, emit.
  cbn [session clock log]. rewrite <- app_assoc. reflexivity.
Qed.

Lemma lifestyle_sync_fourth_shape_witness :
  lifestyle_sync_result (PDict [("urls", PList [PStr "https://u"])])
    {| session := {| api_key := None; pending_urls := [];
                     edited_image := PNone; generated_images := [] |};
       clock := 0; log := [] |} =
  (Ok tt,
   {| session := {| api_key := None; pending_urls := [];
                    edited_image := PStr "https://u"; generated_images := [] |};
      clock := 0;
      log := [debug_dump (PDict [("urls", PList [PStr "https://u"])]);
              EvSuccess image_generated] |}).
Proof.
  apply (lifestyle_sync_fourth_shape [("urls", PList [PStr "https://u"])]
           (PList [PStr "https://u"])
           {| session := {| api_key := None; pending_urls := [];
                            edited_image := PNone; generated_images := [] |};
              clock := 0; log := [] |}).
  - reflexivity.
  - reflexivity.
Defined.

End ResponseFacts.

(** ** Session initialisation *)

Module SessionInitFacts.
Import Py SessionInit.

Lemma dict_get_app key st1 st2 :
  dict_get key (st1 ++ st2) =
  match dict_get key st1 with
  | Some v => Some v
  | None => dict_get key st2
  end.
Proof.
  induction st1 as [|[k v] rest IH]; cbn; [reflexivity|].
  destruct (String.eqb k key); [reflexivity|exact IH].
Qed.

Lemma get_set_default key k v st :
  dict_get key (set_default k v st) =
  match dict_get key st with
  | Some x => Some x
  | None => if String.eqb k key then Some v else None
  end.
Proof.
  unfold set_default, contains.
  destruct (dict_get k st) as [x|] eqn:Hk.
  - destruct (dict_get key st) as [y|] eqn:Hkey; [reflexivity|].
    destruct (String.eqb_spec k key) as [->|_]; [congruence|reflexivity].
  - rewrite dict_get_app. cbn. destruct (dict_get key st); reflexivity.
Qed.

Lemma set_default_present k v st :
  contains k st = true -> set_default k v st = st.
Proof. unfold set_default. intros ->. reflexivity. Qed.

Lemma contains_set_default key k v st :
  contains key st = true -> contains key (set_default k v st) = true.
Proof.
  unfold contains. rewrite get_set_default.
  destruct (dict_get key st); [reflexivity|discriminate].
Qed.

Lemma contains_after_set_default k v st : contains k (set_default k v st) = true.
Proof.
  unfold contains. rewrite get_set_default, String.eqb_refl.
  destruct (dict_get k st); reflexivity.
Qed.

Lemma initialized_keys env st key :
  In key session_keys -> contains key (initialize_session_state env st) = true.
Proof.
  unfold initialize_session_state, session_keys. cbn [In].
  intros [<-|[<-|[<-|[<-|[<-|[<-|[<-|[]]]]]]]];
    repeat (apply contains_after_set_default || apply contains_set_default).
Qed.

(** [initialize_session_state] only fills gaps: every value already in the
    session state is kept, each of the seven names it manages is present
    afterwards, no other name is touched, and a second run (as happens on
    every Streamlit rerun, possibly with another environment) changes
    nothing. *)
Theorem initialize_session_state_only_fills_gaps :
  forall (env : option string) (st : state),
    (forall key v,
        dict_get key st = Some v ->
        dict_get key (initialize_session_state env st) = Some v) /\
    (forall key,
        In key session_keys ->
        contains key (initialize_session_state env st) = true) /\
    (forall key,
        ~ In key session_keys ->
        dict_get key (initialize_session_state env st) = dict_get key st) /\
    (forall env',
        initialize_session_state env' (initialize_session_state env st) =
        initialize_session_state env st).
Proof.
  intros env st. repeat split.
  - intros key v H. unfold initialize_session_state.
    rewrite !get_set_default, H. reflexivity.
  - intros key. apply initialized_keys.
  - intros key Hnot. unfold initialize_session_state.
    rewrite !get_set_default.
    destruct (dict_get key st) as [x|]; [reflexivity|].
    unfold session_keys in Hnot. cbn [In] in Hnot.
    repeat match goal with
    | |- context [String.eqb ?k key] =>
        destruct (String.eqb_spec k key) as [E|_];
        [exfalso; apply Hnot; rewrite <- E; tauto|]
    end.
    reflexivity.
  - intros env'.
    set (st' := initialize_session_state env st).
    assert (Hall : forall key, In key session_keys -> contains key st' = true)
      by (intros; apply initialized_keys; assumption).
    assert (Hkeep : forall k v, In k session_keys -> set_default k v st' = st')
      by (intros; apply set_default_present, Hall; assumption).
    unfold initialize_session_state at 1. cbv zeta.
    rewrite (Hkeep "api_key") by (cbn; tauto).
    rewrite (Hkeep "generated_images") by (cbn; tauto).
    rewrite (Hkeep "current_image") by (cbn; tauto).
    rewrite (Hkeep "pending_urls") by (cbn; tauto).
    rewrite (Hkeep "edited_image") by (cbn; tauto).
    rewrite (Hkeep "original_prompt") by (cbn; tauto).
    apply Hkeep. cbn; tauto.
Qed.

(** On a fresh session with the key in the environment. *)
Example initialize_fresh_session :
  initialize_session_state (Some "k") [] =
    [("api_key", PStr "k"); ("generated_images", PList []);
     ("current_image", PNone); ("pending_urls", PList []);
     ("edited_image", PNone); ("original_prompt", PStr "");
     ("enhanced_prompt", PNone)].
Proof. reflexivity. Qed.

End SessionInitFacts.

(** ** Downloading a result *)

Module DownloadFacts.
Import Run Download.

(** [download_image] never raises.  It returns the body exactly when the
    GET came back with a status outside 400..599, and then shows nothing;
    in every other case (the call raised, or the status is a 4xx/5xx) it
    returns [None] after showing one error that names the cause. *)
Theorem download_image_returns_body_or_none :
  forall (http_get : pyval -> result GetResponse) (url : pyval) (w : World),
    (exists response,
        http_get url = Ok response /\
        error_status (get_status_code response) = false /\
        download_image http_get url w = (Ok (Some (content response)), w)) \/
    (exists cause,
        (http_get url = Raise cause \/
         exists response,
           http_get url = Ok response /\
           error_status (get_status_code response) = true /\
           cause = HTTPError (get_status_code response)) /\
        download_image http_get url w =
          (Ok None, {| session := session w; clock := clock w;
                       log := log w ++
                         [EvError "Error downloading image: " (Some cause)] |})).
Proof.
  intros http_get url w.
  unfold download_image, try_except, Run.bind, lift.
  destruct (http_get url) as [response|e] eqn:Hg.
  - destruct (error_status (get_status_code response)) eqn:Hs;
      unfold error_status in Hs; rewrite Hs.
    + right. exists (HTTPError (get_status_code response)). split.
      * right. exists response. unfold error_status. auto.
      * reflexivity.
    + left. exists response. unfold error_status. repeat split; assumption.
  - right. exists e. split; [left; reflexivity|reflexivity].
Qed.

End DownloadFacts.

(** ** More on the lifestyle-shot calls *)

Module LifestyleCallFacts.
Import Lifestyle ApiText.

Lemma api_char_clean (c : Ascii.ascii) :
  let c' := lower_char c in
  let out := if Ascii.eqb c' " "%char then "_"%char else c' in
  clean_char out = true /\
  (let d := lower_char out in
   (if Ascii.eqb d " "%char then "_"%char else d) = out).
Proof.
  destruct c as [[] [] [] [] [] [] [] []]; vm_compute; split; reflexivity.
Qed.

(** [s.lower().replace(" ", "_")] keeps the length of [s], leaves neither a
    space nor an upper-case ASCII letter, and applying it again changes
    nothing. *)
Theorem api_name_normalises :
  forall s : string,
    String.length (api_name s) = String.length s /\
    all_chars clean_char (api_name s) = true /\
    api_name (api_name s) = api_name s.
Proof.
  induction s as [|c rest (IHl & IHc & IHi)]; [repeat split|].
  cbn [api_name String.length all_chars].
  destruct (api_char_clean c) as [Hc Hi]. cbv zeta in Hc, Hi.
  rewrite IHl, IHc, Hc, Hi, IHi. repeat split.
Qed.

(** Which forms lead to a call, and what the call then carries.  Under
    Manual Placement and Manual Padding both calls stop with an
    [UnboundLocalError] on [shot_width]; under the other three placement
    types both calls are made, the placement type is a word of the API
    vocabulary, the positions are [["upper_left"]] and the padding
    [[0, 0, 0, 0]] whatever was entered, and the shot size is [[1000, 1000]]
    for Original and the entered size otherwise. *)
Theorem lifestyle_calls_reach_service :
  forall (key : option string) (image_data reference_image : list Byte.byte)
         (f : Form),
    match form_placement f with
    | ManualPlacement | ManualPadding =>
        lifestyle_shot_by_text_args key image_data f =
          Raise (UnboundLocalError "shot_width") /\
        lifestyle_shot_by_image_args key image_data reference_image f =
          Raise (UnboundLocalError "shot_width")
    | p =>
        exists by_text by_image,
          lifestyle_shot_by_text_args key image_data f = Ok by_text /\
          lifestyle_shot_by_image_args key image_data reference_image f =
            Ok by_image /\
          (forall a, a = by_text \/ a = by_image ->
             In (arg_placement_type a) placement_vocabulary /\
             arg_manual_placement_selection a = ["upper_left"] /\
             arg_padding_values a = Some [0; 0; 0; 0] /\
             arg_shot_size a =
               match p with
               | Original => [1000; 1000]
               | _ => [fst (form_shot f); snd (form_shot f)]
               end)
    end.
Proof.
  intros key image_data reference_image f.
  unfold lifestyle_shot_by_text_args, lifestyle_shot_by_image_args,
    manual_placements, shot_size_arg, padding_values_arg,
    foreground_image_size_arg, foreground_image_location_arg, render.
  destruct (form_padding f) as [[[l r] t] b].
  destruct (form_placement f); cbn;
    try (split; reflexivity);
    destruct (form_fast_mode f); cbn;
    (eexists _, _; split; [reflexivity|split; [reflexivity|]];
     intros a [-> | ->]; cbn; repeat split; tauto).
Qed.

End LifestyleCallFacts.

(** ** More on the image-expansion call *)

Module ExpansionCallFacts.
Import Run PyFloat Geometry Expansion ExpansionFacts.

Section WithRemote.

Variable remote : ExpansionPayload -> result HttpResponse.

(** Given image data, [expand_image] hands back a value exactly when the
    service answered with a status outside 400..599 and a body that parses,
    and the value is that parsed body; every failure after dispatch comes
    out as the wrapped exception, never as the original one; and in all
    cases exactly one request has been sent. *)
Theorem expand_image_result :
  forall (key : option string) (image_data : list Byte.byte)
         (canvas size location : Z * Z) (sync : bool) (w : World),
    image_data <> [] ->
    let data := payload_of image_data canvas size location sync in
    let run := expand_image remote key image_data canvas size location sync w in
    (forall v,
        fst run = Ok v <->
        exists response,
          remote data = Ok response /\
          Download.error_status (status_code response) = false /\
          json response = Ok v) /\
    (forall e, fst run = Raise e -> exists inner, e = Wrapped inner) /\
    posts (log (snd run)) = posts (log w) ++ [data] /\
    session (snd run) = session w.
Proof.
  intros key image_data canvas size location sync w Hne data run.
  subst run. rewrite expand_image_sends by exact Hne. fold data.
  cbn [fst snd log session]. unfold outcome_of, Download.error_status.
  repeat split.
  - intros H. destruct (remote data) as [response|e]; [|discriminate].
    exists response.
    destruct ((400 <=? status_code response) && (status_code response <? 600))%bool;
      [discriminate|].
    destruct (json response) as [v'|e]; [|discriminate].
    injection H as ->. repeat split.
  - intros (response & -> & -> & ->). reflexivity.
  - intros e H. destruct (remote data) as [response|e0].
    + destruct ((400 <=? status_code response) && (status_code response <? 600))%bool.
      * injection H as <-. eexists; reflexivity.
      * destruct (json response); [discriminate|].
        injection H as <-. eexists; reflexivity.
    + injection H as <-. eexists; reflexivity.
  - rewrite posts_app. reflexivity.
Qed.


End WithRemote.

Lemma expand_image_result_witness :
  posts (log (snd (expand_image
    (fun _ => Ok {| status_code := 200;
                    json := Ok (PDict [("result_url", PStr "https://r")]) |})
    (Some "key") [Byte.x01] (1600, 600) (800, 600) (400, 0) true
    {| session := {| api_key := Some "key"; pending_urls := [];
                     edited_image := PNone; generated_images := [] |};
       clock := 0; log := [] |}))) =
  [payload_of [Byte.x01] (1600, 600) (800, 600) (400, 0) true].
Proof.
  apply (expand_image_result
           (fun _ => Ok {| status_code := 200;
                           json := Ok (PDict [("result_url", PStr "https://r")]) |})
           (Some "key") [Byte.x01] (1600, 600) (800, 600) (400, 0) true
           {| session := {| api_key := Some "key"; pending_urls := [];
                            edited_image := PNone; generated_images := [] |};
              clock := 0; log := [] |}).
  discriminate.
Defined.

End ExpansionCallFacts.

(** ** Exact cases of the pixel arithmetic *)

Module ExactScalingFacts.
Import PyFloat Geometry PyFloatFacts.

Lemma pos_iter_xO_value m k : Zpos (Pos.iter xO m k) = Zpos m * 2 ^ Zpos k.
Proof.
  induction k as [|k IH] using Pos.peano_ind.
  - cbn. lia.
  - rewrite Pos.iter_succ, Pos2Z.inj_xO, IH, Pos2Z.inj_succ, Z.pow_succ_r by lia. ring.
Qed.

Lemma binary_round_aux_canonical s m e :
  Zpos (digits2_pos m) = 53 -> emin prec emax <= e <= emax - prec ->
  binary_round_aux prec emax s (Zpos m) e loc_Exact = S754_finite s m e.
Proof.
  intros Hd He. unfold binary_round_aux, shr_fexp.
  cbn [Zdigits2 shr_record_of_loc]. rewrite Hd.
  assert (Hn : fexp prec emax (53 + e) - e = 0).
  { unfold fexp, emin, prec, emax in *. change IntDef.Z.max with Z.max. lia. }
  rewrite Hn. cbn [shr shr_m loc_of_shr_record round_nearest_even Zdigits2 shr_record_of_loc].
  rewrite Hd, Hn. cbn [shr shr_m].
  destruct (Z.leb_spec e (emax - prec)); [reflexivity|lia].
Qed.

Lemma float_of_int_exact n : 1 <= n < 2 ^ 53 ->
  exists m e, float_of_int n = Ok (S754_finite false m e) /\
    Zpos (digits2_pos m) = 53 /\ -52 <= e <= 0 /\ Zpos m = n * 2 ^ (- e).
Proof.
  intros [H1 H2]. destruct n as [|w|w]; try lia.
  unfold float_of_int. cbn [binary_normalize]. unfold binary_round.
  assert (Hd : 1 <= Zpos (digits2_pos w) <= 53).
  { split; [lia|]. apply (Zdigits2_le (Zpos w) 53); lia. }
  unfold shl_align.
  assert (Hf : fexp prec emax (Zpos (digits2_pos w) + 0) - 0 = Zpos (digits2_pos w) - 53).
  { unfold fexp, emin, prec, emax. change IntDef.Z.max with Z.max. lia. }
  rewrite Hf.
  destruct (Zpos (digits2_pos w) - 53) as [|d|d] eqn:Hk; try lia.
  - rewrite binary_round_aux_canonical by (unfold emin, emax, prec; lia).
    exists w, 0. repeat split; try lia.
  - replace (fexp prec emax (Zpos (digits2_pos w) + 0)) with (Zneg d)
      by (unfold fexp, emin, prec, emax; change IntDef.Z.max with Z.max; lia).
    rewrite binary_round_aux_canonical.
    + exists (Pos.iter xO w d), (Zneg d). repeat split; try lia.
      * rewrite digits2_iter_xO. lia.
      * rewrite pos_iter_xO_value. reflexivity.
    + rewrite digits2_iter_xO. lia.
    + unfold emin, emax, prec; lia.
Qed.

Lemma fmul_one m e :
  Zpos (digits2_pos m) = 53 -> -52 <= e <= 0 ->
  fmul (S754_finite false m e) fone = S754_finite false m e.
Proof.
  intros Hd He. unfold fmul, fone. cbn [SFmul xorb].
  change (PosDef.Pos.mul m 4503599627370496) with (Pos.mul m 4503599627370496).
  rewrite Pos.mul_comm.
  unfold binary_round_aux, shr_fexp.
  cbn [Pos.mul Zdigits2 digits2_pos shr_record_of_loc].
  assert (Hn : forall d, Zpos d = 105 ->
     fexp prec emax (Zpos d + (e + -52)) - (e + -52) = 52).
  { intros d ->. unfold fexp, emin, prec, emax. change IntDef.Z.max with Z.max. lia. }
  rewrite Hn by (rewrite !Pos2Z.inj_succ; lia).
  cbn [shr iter_pos shr_1 orb shr_m loc_of_shr_record round_nearest_even
       Zdigits2 shr_record_of_loc].
  rewrite Hd.
  replace (fexp prec emax (53 + (e + -52 + 52)) - (e + -52 + 52)) with 0
    by (unfold fexp, emin, prec, emax; change IntDef.Z.max with Z.max; lia).
  cbn [shr shr_m].
  destruct (Z.leb_spec (e + -52 + 52) (emax - prec)); [|unfold emax, prec in *; lia].
  f_equal. lia.
Qed.

Lemma int_of_float_exact n m e :
  -52 <= e <= 0 -> Zpos m = n * 2 ^ (- e) ->
  int_of_float (S754_finite false m e) = Ok n.
Proof.
  intros He Hm. unfold int_of_float. cbn [cond_Zopp]. f_equal.
  destruct e as [|p|p]; try lia.
  - cbn in Hm. rewrite Z.shiftl_0_r. lia.
  - rewrite Hm. change (- Zneg p) with (Zpos p).
    rewrite Z.shiftr_div_pow2 by lia. apply Z.div_mul.
    apply Z.pow_nonzero; lia.
Qed.

Lemma scale_one n : 1 <= n < 2 ^ 53 -> scale n fone = Ok n.
Proof.
  intros Hn. unfold scale, mul_int_float.
  destruct (float_of_int_exact n Hn) as (m & e & -> & Hd & He & Hm).
  cbn [rbind]. rewrite fmul_one by assumption.
  apply int_of_float_exact; assumption.
Qed.

Lemma scale_zero n : 0 <= n < dimension_limit -> scale n fzero = Ok 0.
Proof.
  intros Hn. unfold scale, mul_int_float.
  destruct (float_of_int_finite n Hn) as (f & -> & Hf). cbn [rbind].
  destruct f; cbn [finite_below] in Hf; try contradiction; reflexivity.
Qed.

Lemma expanded_zero n : 1 <= n < 2 ^ 53 -> expanded n fzero fzero = Ok n.
Proof.
  intros Hn. unfold expanded, add_int_float.
  change (float_of_int 1) with (Ok fone). cbn [rbind].
  change (fadd (fadd fone fzero) fzero) with fone.
  apply scale_one, Hn.
Qed.

(** Enlarging by nothing changes nothing: with all four ratios 0.0 the
    canvas is the original size and the original sits at (0, 0), for every
    image whose dimensions a double holds exactly. *)
Theorem expansion_by_zero_is_identity :
  forall original_width original_height : Z,
    1 <= original_width < 2 ^ 53 ->
    1 <= original_height < 2 ^ 53 ->
    expansion_placement original_width original_height
      fzero fzero fzero fzero =
    Ok {| canvas_size := (original_width, original_height);
          original_image_size := (original_width, original_height);
          original_image_location := (0, 0) |}.
Proof.
  intros W H HW HH. unfold expansion_placement.
  assert (LW : 0 <= W < dimension_limit) by (unfold dimension_limit; lia).
  assert (LH : 0 <= H < dimension_limit) by (unfold dimension_limit; lia).
  rewrite !expanded_zero, !scale_zero by assumption. reflexivity.
Qed.

Lemma expansion_by_zero_is_identity_witness :
  expansion_placement 1920 1080 fzero fzero fzero fzero =
  Ok {| canvas_size := (1920, 1080);
        original_image_size := (1920, 1080);
        original_image_location := (0, 0) |}.
Proof.
  apply (expansion_by_zero_is_identity 1920 1080); lia.
Defined.

(** Start ratios 0.0 with width and height ratios 1.0 select the whole
    image, pixel for pixel. *)
Theorem full_ratios_select_whole_image :
  forall original_width original_height : Z,
    1 <= original_width < 2 ^ 53 ->
    1 <= original_height < 2 ^ 53 ->
    mask_region original_width original_height fzero fzero fone fone =
    Ok {| x_start := 0; y_start := 0;
          mask_width := original_width; mask_height := original_height |}.
Proof.
  intros W H HW HH. unfold mask_region.
  assert (LW : 0 <= W < dimension_limit) by (unfold dimension_limit; lia).
  assert (LH : 0 <= H < dimension_limit) by (unfold dimension_limit; lia).
  rewrite !scale_one, !scale_zero by assumption. cbn [rbind].
  f_equal. f_equal; lia.
Qed.

Lemma full_ratios_select_whole_image_witness :
  mask_region 1000 800 fzero fzero fone fone =
  Ok {| x_start := 0; y_start := 0; mask_width := 1000; mask_height := 800 |}.
Proof.
  apply (full_ratios_select_whole_image 1000 800); lia.
Defined.

End ExactScalingFacts.

(** ** The mask bitmap *)

Module MaskFacts.
Import PyFloat Geometry PyFloatFacts GeometryFacts Mask.

Lemma binary_round_aux_sign s m e l :
  match binary_round_aux prec emax s m e l with
  | S754_zero s' | S754_infinity s' | S754_finite s' _ _ => s' = s
  | S754_nan => True
  end.
Proof.
  unfold binary_round_aux.
  destruct (shr_fexp prec emax m e l) as [mrs1 e1].
  destruct (shr_fexp prec emax _ e1 loc_Exact) as [mrs2 e2].
  destruct (shr_m mrs2); [reflexivity| |exact I].
  destruct (Z.leb e2 (emax - prec)); reflexivity.
Qed.

Lemma float_of_int_sign n f : 0 <= n -> float_of_int n = Ok f ->
  match f with
  | S754_zero s | S754_finite s _ _ => s = false
  | _ => False
  end.
Proof.
  intros Hn. unfold float_of_int. destruct n as [|w|w]; try lia.
  - intros E. injection E as <-. reflexivity.
  - cbn [binary_normalize]. unfold binary_round.
    destruct (shl_align w 0 _) as [mz ez].
    pose proof (binary_round_aux_sign false (Zpos mz) ez loc_Exact) as Hs.
    destruct (binary_round_aux prec emax false (Zpos mz) ez loc_Exact);
      intros E; try discriminate; injection E as <-; exact Hs.
Qed.

Lemma int_of_float_nonneg f z :
  match f with
  | S754_zero _ => True
  | S754_finite s _ _ => s = false
  | _ => True
  end ->
  int_of_float f = Ok z -> 0 <= z.
Proof.
  destruct f as [s|s| |s m e]; unfold int_of_float; intros Hs E;
    try discriminate.
  - injection E as <-. lia.
  - subst s. injection E as <-. cbn [cond_Zopp].
    destruct e as [|p|p].
    + apply Z.shiftl_nonneg. lia.
    + apply Z.shiftl_nonneg. lia.
    + apply Z.shiftr_nonneg. lia.
Qed.

Lemma scale_nonneg n r z :
  0 <= n -> fleb fzero r = true -> scale n r = Ok z -> 0 <= z.
Proof.
  intros Hn Hr. unfold scale, mul_int_float.
  destruct (float_of_int n) as [x|e] eqn:Hx; cbn [rbind]; [|discriminate].
  pose proof (float_of_int_sign n x Hn Hx) as Hs.
  apply int_of_float_nonneg.
  destruct x as [sx|sx| |sx mx ex]; try contradiction;
    destruct r as [sr|sr| |sr mr er]; try discriminate; cbn; try exact I.
  - destruct sr; [discriminate|]. subst sx.
    pose proof (binary_round_aux_sign (xorb false false) (Zpos (mx * mr)) (ex + er) loc_Exact) as Hb.
    unfold fmul. cbn [SFmul] in *.
    destruct (binary_round_aux prec emax (xorb false false) _ _ loc_Exact); try exact I.
    exact Hb.
Qed.

Lemma in_py_range a s e : In a (py_range s e) <-> s <= a < e.
Proof.
  unfold py_range. rewrite in_map_iff. split.
  - intros (i & <- & Hi). apply in_seq in Hi. lia.
  - intros Ha. exists (Z.to_nat (a - s)). split; [lia|]. apply in_seq. lia.
Qed.

Lemma existsb_py_range a s e :
  existsb (Z.eqb a) (py_range s e) = ((s <=? a) && (a <? e))%bool.
Proof.
  destruct ((s <=? a) && (a <? e))%bool eqn:Hb.
  - apply existsb_exists. exists a. split; [|apply Z.eqb_refl].
    apply in_py_range. apply andb_prop in Hb. lia.
  - destruct (existsb (Z.eqb a) (py_range s e)) eqn:He; [|reflexivity].
    apply existsb_exists in He. destruct He as (x & Hin & Hx).
    apply Z.eqb_eq in Hx. subst x. apply in_py_range in Hin.
    apply andb_false_iff in Hb. lia.
Qed.

Lemma putpixel_inside img x y v :
  0 <= x < xsize img -> 0 <= y < ysize img ->
  putpixel img x y v =
    Ok {| xsize := xsize img; ysize := ysize img;
          pixel := fun a b =>
            if ((a =? x) && (b =? y))%bool then v else pixel img a b |}.
Proof.
  intros Hx Hy. unfold putpixel.
  assert (E1 : (x <? 0) = false) by (apply Z.ltb_ge; lia).
  assert (E2 : (y <? 0) = false) by (apply Z.ltb_ge; lia).
  assert (E3 : (xsize img <=? x) = false) by (apply Z.leb_gt; lia).
  assert (E4 : (ysize img <=? y) = false) by (apply Z.leb_gt; lia).
  cbv zeta. rewrite !E1, !E2, E3, E4. reflexivity.
Qed.

Lemma paint_column_spec x ys : forall img,
  0 <= x < xsize img ->
  Forall (fun y => 0 <= y < ysize img) ys ->
  exists img',
    paint_column img x ys = Ok img' /\
    xsize img' = xsize img /\ ysize img' = ysize img /\
    forall a b,
      pixel img' a b =
      if ((a =? x) && existsb (Z.eqb b) ys)%bool then 255 else pixel img a b.
Proof.
  induction ys as [|y rest IH]; intros img Hx Hys.
  - exists img. repeat split. intros a b. rewrite andb_false_r. reflexivity.
  - inversion Hys as [|? ? Hy Hrest]; subst.
    cbn [paint_column]. rewrite putpixel_inside by assumption. cbn [rbind].
    destruct (IH {| xsize := xsize img; ysize := ysize img;
                    pixel := fun a b =>
                      if ((a =? x) && (b =? y))%bool then 255 else pixel img a b |})
      as (img' & E & Hxs & Hysz & Hpix); [exact Hx|exact Hrest|].
    exists img'. cbn [xsize ysize pixel] in *. repeat split; try assumption.
    intros a b. rewrite Hpix. cbn [existsb].
    destruct (a =? x); cbn [andb]; [|reflexivity].
    destruct (existsb (Z.eqb b) rest); [rewrite orb_true_r; reflexivity|].
    rewrite orb_false_r. reflexivity.
Qed.

Lemma paint_columns_spec ys xs : forall img,
  Forall (fun x => 0 <= x < xsize img) xs ->
  Forall (fun y => 0 <= y < ysize img) ys ->
  exists img',
    paint_columns img xs ys = Ok img' /\
    xsize img' = xsize img /\ ysize img' = ysize img /\
    forall a b,
      pixel img' a b =
      if (existsb (Z.eqb a) xs && existsb (Z.eqb b) ys)%bool
      then 255 else pixel img a b.
Proof.
  induction xs as [|x rest IH]; intros img Hxs Hys.
  - exists img. repeat split.
  - inversion Hxs as [|? ? Hx Hrest]; subst.
    cbn [paint_columns].
    destruct (paint_column_spec x ys img Hx Hys) as (img1 & -> & Hx1 & Hy1 & Hp1).
    cbn [rbind].
    destruct (IH img1) as (img' & E & Hxs' & Hys' & Hpix).
    + rewrite Hx1. exact Hrest.
    + rewrite Hy1. exact Hys.
    + exists img'. repeat split; try congruence.
      intros a b. rewrite Hpix, Hp1. cbn [existsb].
      destruct (a =? x); cbn [orb andb]; [|reflexivity].
      destruct (existsb (Z.eqb a) rest); cbn [andb];
        destruct (existsb (Z.eqb b) ys); reflexivity.
Qed.

Lemma draw_mask_spec W H reg :
  0 <= x_start reg -> 0 <= y_start reg ->
  x_start reg + mask_width reg <= W ->
  y_start reg + mask_height reg <= H ->
  exists img,
    draw_mask W H reg = Ok img /\
    xsize img = W /\ ysize img = H /\
    forall x y, pixel img x y = if in_region reg x y then 255 else 0.
Proof.
  intros Hx Hy Hw Hh. unfold draw_mask.
  destruct (paint_columns_spec
              (py_range (y_start reg) (y_start reg + mask_height reg))
              (py_range (x_start reg) (x_start reg + mask_width reg))
              (new_bitmap W H)) as (img & E & Hxs & Hys & Hpix).
  - apply Forall_forall. intros x Hin. apply in_py_range in Hin. cbn. lia.
  - apply Forall_forall. intros y Hin. apply in_py_range in Hin. cbn. lia.
  - exists img. repeat split; try assumption.
    intros x y. rewrite Hpix, !existsb_py_range. unfold in_region.
    rewrite !andb_assoc. reflexivity.
Qed.

Lemma filter_map_length {A B} (f : B -> bool) (g : A -> B) l :
  List.length (filter f (map g l)) = List.length (filter (fun a => f (g a)) l).
Proof.
  induction l as [|a rest IH]; cbn; [reflexivity|].
  destruct (f (g a)); cbn; rewrite IH; reflexivity.
Qed.

Lemma filter_false_length {A} (l : list A) :
  List.length (filter (fun _ => false) l) = O.
Proof. induction l; cbn; auto. Qed.

Lemma filter_prod_length {A B} (p : A -> bool) (q : B -> bool) l1 l2 :
  List.length (filter (fun xy => (p (fst xy) && q (snd xy))%bool)
                 (list_prod l1 l2)) =
  (List.length (filter p l1) * List.length (filter q l2))%nat.
Proof.
  induction l1 as [|a rest IH]; cbn [list_prod filter]; [reflexivity|].
  rewrite filter_app, length_app, IH, filter_map_length.
  destruct (p a) eqn:Hp.
  - rewrite (filter_ext _ q) by (intros b; cbn [fst snd]; rewrite Hp; reflexivity).
    cbn [List.length Nat.mul]. reflexivity.
  - rewrite (filter_ext _ (fun _ => false))
      by (intros b; cbn [fst snd]; rewrite Hp; reflexivity).
    rewrite filter_false_length. reflexivity.
Qed.

Lemma py_range_length s e : List.length (py_range s e) = Z.to_nat (e - s).
Proof. unfold py_range. rewrite length_map, length_seq. reflexivity. Qed.

Lemma py_range_NoDup s e : NoDup (py_range s e).
Proof.
  unfold py_range. apply Finite.Injective_map_NoDup; [|apply seq_NoDup].
  intros i j Hij. lia.
Qed.

Lemma count_in_range s e W :
  0 <= s -> e <= W ->
  List.length (filter (fun x => ((s <=? x) && (x <? e))%bool) (py_range 0 W)) =
  Z.to_nat (e - s).
Proof.
  intros Hs He. rewrite <- py_range_length.
  apply Permutation_length. apply NoDup_Permutation.
  - apply NoDup_filter, py_range_NoDup.
  - apply py_range_NoDup.
  - intros x. rewrite filter_In, !in_py_range, andb_true_iff, Z.leb_le, Z.ltb_lt.
    lia.
Qed.

Lemma count_white_region img reg :
  0 <= x_start reg -> 0 <= y_start reg ->
  x_start reg + mask_width reg <= xsize img ->
  y_start reg + mask_height reg <= ysize img ->
  (forall x y, pixel img x y = if in_region reg x y then 255 else 0) ->
  count_white img =
  (Z.to_nat (mask_width reg) * Z.to_nat (mask_height reg))%nat.
Proof.
  intros Hx Hy Hw Hh Hpix. unfold count_white.
  rewrite (filter_ext _
             (fun xy =>
                (((x_start reg <=? fst xy) &&
                  (fst xy <? x_start reg + mask_width reg)) &&
                 ((y_start reg <=? snd xy) &&
                  (snd xy <? y_start reg + mask_height reg)))%bool)).
  - rewrite (filter_prod_length
               (fun x => ((x_start reg <=? x) && (x <? x_start reg + mask_width reg))%bool)
               (fun y => ((y_start reg <=? y) && (y <? y_start reg + mask_height reg))%bool)).
    rewrite !count_in_range by assumption. f_equal; f_equal; lia.
  - intros [x y]. cbn [fst snd]. rewrite Hpix. unfold in_region.
    rewrite <- !andb_assoc.
    destruct ((x_start reg <=? x) &&
              ((x <? x_start reg + mask_width reg) &&
               ((y_start reg <=? y) && (y <? y_start reg + mask_height reg))))%bool;
      reflexivity.
Qed.

(** For a region that lies inside the image the drawing loops raise no
    [IndexError]; the bitmap keeps the size of the image, is 255 exactly on
    the pixels of the region and 0 elsewhere, and the number of white
    pixels is the area of the region. *)
Theorem draw_mask_paints_region :
  forall (original_width original_height : Z) (reg : Region),
    0 <= x_start reg -> 0 <= y_start reg ->
    x_start reg + mask_width reg <= original_width ->
    y_start reg + mask_height reg <= original_height ->
    exists img,
      draw_mask original_width original_height reg = Ok img /\
      xsize img = original_width /\ ysize img = original_height /\
      (forall x y, pixel img x y = if in_region reg x y then 255 else 0) /\
      count_white img =
        (Z.to_nat (mask_width reg) * Z.to_nat (mask_height reg))%nat.
Proof.
  intros W H reg Hx Hy Hw Hh.
  destruct (draw_mask_spec W H reg Hx Hy Hw Hh) as (img & E & Hxs & Hys & Hpix).
  exists img. repeat split; try assumption.
  apply count_white_region; try assumption; congruence.
Qed.

Lemma draw_mask_paints_region_witness :
  exists img,
    draw_mask 4 3 {| x_start := 1; y_start := 1;
                     mask_width := 2; mask_height := 1 |} = Ok img /\
    count_white img = 2%nat.
Proof.
  destruct (draw_mask_paints_region 4 3
              {| x_start := 1; y_start := 1; mask_width := 2; mask_height := 1 |})
    as (img & E & _ & _ & _ & Hc); cbn; try lia.
  exists img. split; [exact E|exact Hc].
Defined.

(** Whatever the sliders show, a mask comes out: for every image below
    [dimension_limit] and all four ratios in [0, 1] the region computation
    and the drawing loops raise nothing, the region starts at non-negative
    coordinates, and the bitmap has the size of the image and is white
    exactly on the region. *)
Theorem sliders_always_yield_mask :
  forall (original_width original_height : Z)
         (x_start_ratio y_start_ratio mask_width_ratio mask_height_ratio
            : pyfloat),
    1 <= original_width < dimension_limit ->
    1 <= original_height < dimension_limit ->
    in_unit_interval x_start_ratio -> in_unit_interval y_start_ratio ->
    in_unit_interval mask_width_ratio -> in_unit_interval mask_height_ratio ->
    exists reg img,
      mask_region original_width original_height x_start_ratio y_start_ratio
        mask_width_ratio mask_height_ratio = Ok reg /\
      mask_of_ratios original_width original_height x_start_ratio
        y_start_ratio mask_width_ratio mask_height_ratio = Ok img /\
      0 <= x_start reg /\ 0 <= y_start reg /\
      xsize img = original_width /\ ysize img = original_height /\
      (forall x y, pixel img x y = if in_region reg x y then 255 else 0).
Proof.
  intros W H x0 y0 rw rh HW HH Hx Hy Hw Hh.
  destruct (scale_total W x0 ltac:(lia) Hx) as (xs & E1).
  destruct (scale_total H y0 ltac:(lia) Hy) as (ys & E2).
  destruct (scale_total W rw ltac:(lia) Hw) as (mw & E3).
  destruct (scale_total H rh ltac:(lia) Hh) as (mh & E4).
  pose proof (mask_region_unfold W H x0 y0 rw rh xs ys mw mh E1 E2 E3 E4) as Hreg.
  assert (Hxs : 0 <= xs)
    by (apply (scale_nonneg W x0); [lia|apply Hx|exact E1]).
  assert (Hys : 0 <= ys)
    by (apply (scale_nonneg H y0); [lia|apply Hy|exact E2]).
  destruct (draw_mask_spec W H
              {| x_start := xs; y_start := ys;
                 mask_width := Z.min (xs + mw) W - xs;
                 mask_height := Z.min (ys + mh) H - ys |})
    as (img & E & Hsx & Hsy & Hpix); cbn [x_start y_start mask_width mask_height];
    try lia.
  eexists _, img. split; [exact Hreg|].
  unfold mask_of_ratios. rewrite Hreg. cbn [rbind].
  repeat split; assumption.
Qed.

Lemma sliders_always_yield_mask_witness :
  exists reg img,
    mask_region 10 8 (decimal 9 10) (decimal 25 100)
      (decimal 3 10) (decimal 5 10) = Ok reg /\
    mask_of_ratios 10 8 (decimal 9 10) (decimal 25 100)
      (decimal 3 10) (decimal 5 10) = Ok img /\
    0 <= x_start reg /\ 0 <= y_start reg /\
    xsize img = 10 /\ ysize img = 8 /\
    (forall x y, pixel img x y = if in_region reg x y then 255 else 0).
Proof.
  apply (sliders_always_yield_mask 10 8 (decimal 9 10) (decimal 25 100)
           (decimal 3 10) (decimal 5 10));
    try (unfold dimension_limit; lia);
    repeat split; vm_compute; reflexivity.
Defined.

End MaskFacts.

(** ** The region is a rectangle inside the image *)

Module RegionFacts.
Import PyFloat Geometry Mask PyFloatFacts GeometryFacts ExactScalingFacts MaskFacts.

(** Shifting keeps track of what it drops. *)
Lemma shr_1_shifted m k mrs : 0 <= m -> 0 <= k ->
  shifted m k mrs -> shifted m (k + 1) (shr_1 mrs).
Proof.
  intros Hm Hk (H0 & Hq & Hrs).
  assert (Hp : 0 < 2 ^ k) by (apply Z.pow_pos_nonneg; lia).
  assert (Hpow : 2 ^ (k + 1) = 2 ^ k * 2) by (rewrite Z.pow_add_r by lia; reflexivity).
  assert (Hdiv : forall c, m = c * 2 ^ (k + 1) -> shr_m mrs = 2 * c).
  { intros c Hc. rewrite Hq, Hc, Hpow.
    replace (c * (2 ^ k * 2)) with (2 * c * 2 ^ k) by ring.
    apply Z.div_mul. lia. }
  split; [|split].
  - rewrite shr_1_spec by assumption. apply Z.div_pos; lia.
  - rewrite shr_1_spec by assumption. rewrite Hq, Z.div_div, Hpow by lia. reflexivity.
  - intros Hflag [c Hc]. specialize (Hdiv c Hc).
    destruct mrs as [mm r s]. cbn [shr_m shr_r shr_s] in *.
    assert (Hk' : (2 ^ k | m)).
    { exists (c * 2). rewrite Hc, Hpow. ring. }
    destruct mm as [|[p|p|]|p]; cbn in Hflag; try lia;
      destruct r, s; cbn in Hflag; try discriminate;
      try (apply Hrs; [reflexivity|exact Hk']).
Qed.

Lemma iter_shr_1_shifted m p : 0 <= m -> forall k mrs, 0 <= k ->
  shifted m k mrs -> shifted m (k + Zpos p) (iter_pos shr_1 p mrs).
Proof.
  intros Hm. induction p as [p IH|p IH|]; intros k mrs Hk H; cbn [iter_pos].
  - replace (k + Zpos p~1) with (k + 1 + Zpos p + Zpos p) by lia.
    apply IH; [lia|]. apply IH; [lia|]. apply shr_1_shifted; assumption.
  - replace (k + Zpos p~0) with (k + Zpos p + Zpos p) by lia.
    apply IH; [lia|]. apply IH; assumption.
  - apply shr_1_shifted; assumption.
Qed.

Lemma shr_fexp_exact m e : 0 <= m ->
  let r := shr_fexp prec emax m e loc_Exact in
  let n := snd r - e in
  0 <= n /\
  snd r = Z.max e (fexp prec emax (Zdigits2 m + e)) /\
  shr_m (fst r) = m / 2 ^ n /\
  (loc_of_shr_record (fst r) = loc_Exact \/ ~ (2 ^ n | m)).
Proof.
  intros Hm. unfold shr_fexp, shr. cbn [shr_record_of_loc].
  destruct (fexp prec emax (Zdigits2 m + e) - e) as [|p|p] eqn:Hn; cbn [fst snd].
  - replace (e - e) with 0 by lia. rewrite Z.div_1_r. repeat split; try lia.
    left; reflexivity.
  - destruct (iter_shr_1_shifted m p Hm 0
                {| shr_m := m; shr_r := false; shr_s := false |})
      as (H0 & Hq & Hrs); [lia| |].
    { split; [exact Hm|]. split; [cbn; rewrite Z.div_1_r; reflexivity|].
      cbn. discriminate. }
    replace (e + Zpos p - e) with (0 + Zpos p) by lia.
    repeat split; try lia; try assumption.
    destruct (iter_pos shr_1 p _) as [mm r s]. cbn [shr_r shr_s] in Hrs.
    destruct r, s; cbn; try (right; apply Hrs; reflexivity). left; reflexivity.
  - replace (e - e) with 0 by lia. rewrite Z.div_1_r. repeat split; try lia.
    left; reflexivity.
Qed.

Lemma round_nearest_even_exact m : round_nearest_even m loc_Exact = m.
Proof. reflexivity. Qed.

Lemma pow2_pos k : 0 <= k -> 0 < 2 ^ k.
Proof. intros. apply Z.pow_pos_nonneg; lia. Qed.

Lemma pow2_split a b : 0 <= a -> 0 <= b -> 2 ^ (a + b) = 2 ^ a * 2 ^ b.
Proof. intros. apply Z.pow_add_r; assumption. Qed.

(** Rounding cannot carry a value past a bound that the format holds on
    the same grid. *)
Lemma rounded_product_le (M : positive) (W t z : Z) :
  0 <= t -> 1 <= W < 2 ^ 53 -> Zpos M <= W * 2 ^ t ->
  int_of_float (binary_round_aux prec emax false (Zpos M) (- t) loc_Exact) = Ok z ->
  z <= W.
Proof.
  intros Ht HW HM. unfold binary_round_aux.
  pose proof (shr_fexp_exact (Zpos M) (- t) ltac:(lia)) as H1. cbv zeta in H1.
  destruct (shr_fexp prec emax (Zpos M) (- t) loc_Exact) as [mrs1 e1].
  cbn [fst snd] in H1. destruct H1 as (Hn1 & He1 & Hm1 & Hloc).
  assert (HdM : Zdigits2 (Zpos M) <= 53 + t).
  { apply Zdigits2_le; try lia. rewrite pow2_split by lia.
    pose proof (pow2_pos t Ht). nia. }
  assert (He1' : e1 <= 0).
  { rewrite He1. unfold fexp, emin, prec, emax. change IntDef.Z.max with Z.max. lia. }
  set (n1 := e1 - - t) in *.
  assert (Hn1t : n1 <= t) by lia.
  set (K := W * 2 ^ (t - n1)).
  assert (HK : W * 2 ^ t = K * 2 ^ n1).
  { unfold K. rewrite <- Z.mul_assoc, <- pow2_split by lia. f_equal. f_equal. lia. }
  pose proof (pow2_pos n1 Hn1) as Hp1.
  pose proof (pow2_pos (t - n1) ltac:(lia)) as Hp1'.
  assert (Hm2 : 0 <= round_nearest_even (shr_m mrs1) (loc_of_shr_record mrs1) <= K).
  { assert (H0 : 0 <= shr_m mrs1) by (rewrite Hm1; apply Z.div_pos; lia).
    pose proof (round_nearest_even_bounds (shr_m mrs1) (loc_of_shr_record mrs1) H0) as Hb.
    split; [lia|].
    destruct Hloc as [Hex|Hnd].
    - rewrite Hex. cbn [round_nearest_even]. rewrite Hm1.
      apply Z.div_le_upper_bound; [lia|]. lia.
    - assert (Zpos M <> K * 2 ^ n1).
      { intros E. apply Hnd. exists K. exact E. }
      assert (shr_m mrs1 < K).
      { rewrite Hm1. apply Z.div_lt_upper_bound; [lia|]. lia. }
      lia. }
  set (m2 := round_nearest_even (shr_m mrs1) (loc_of_shr_record mrs1)) in *.
  pose proof (shr_fexp_exact m2 e1 ltac:(lia)) as H2. cbv zeta in H2.
  destruct (shr_fexp prec emax m2 e1 loc_Exact) as [mrs2 e2].
  cbn [fst snd] in H2. destruct H2 as (Hn2 & He2 & Hm3 & _).
  assert (HKlt : K < 2 ^ (53 + (t - n1))).
  { unfold K. rewrite pow2_split by lia. nia. }
  assert (Hd2 : Zdigits2 m2 <= 53 + (t - n1)).
  { apply Zdigits2_le; lia. }
  assert (He2' : e2 <= 0).
  { rewrite He2. unfold fexp, emin, prec, emax. change IntDef.Z.max with Z.max. lia. }
  set (n2 := e2 - e1) in *.
  remember (t - n1 - n2) as c eqn:Hcdef.
  assert (Hc : 0 <= c /\ e2 = - c) by lia.
  pose proof (pow2_pos n2 Hn2) as Hp2.
  pose proof (pow2_pos c ltac:(lia)) as Hpc.
  assert (HK2 : K = W * 2 ^ c * 2 ^ n2).
  { unfold K. rewrite <- Z.mul_assoc, <- pow2_split by lia. f_equal. f_equal. lia. }
  assert (Hm3' : shr_m mrs2 <= W * 2 ^ c).
  { rewrite Hm3. apply Z.div_le_upper_bound; [lia|]. lia. }
  destruct (shr_m mrs2) as [|m3|m3] eqn:Hm3e.
  - cbn. intros E. injection E as <-. lia.
  - destruct (Z.leb e2 (emax - prec)); [|discriminate].
    unfold int_of_float. cbn [cond_Zopp]. intros E. injection E as <-.
    destruct Hc as [Hc0 ->].
    destruct c as [|pc|pc]; try lia.
    + cbn [Z.opp]. rewrite Z.shiftl_0_r. cbn in Hm3'. lia.
    + cbn [Z.opp]. rewrite Z.shiftr_div_pow2 by lia.
      apply Z.div_le_upper_bound; [lia|]. lia.
  - discriminate.
Qed.

Lemma compare_cont_le (m c : positive) :
  match PosDef.Pos.compare_cont Eq m c with Gt => false | _ => true end = true ->
  (m <= c)%positive.
Proof.
  intros H. unfold Pos.le. change (PosDef.Pos.compare_cont Eq m c) with (Pos.compare m c) in H.
  destruct (m ?= c)%positive; congruence.
Qed.

Lemma unit_mantissa_bound s m e :
  in_unit_interval (S754_finite s m e) ->
  s = false /\ e <= -52 /\ Zpos m <= 2 ^ (- e).
Proof.
  intros (Hv & H0 & H1).
  destruct s; [discriminate|]. split; [reflexivity|].
  unfold is_float in Hv. cbn [valid_binary] in Hv. unfold bounded in Hv.
  apply andb_prop in Hv. destruct Hv as [Hc _].
  unfold canonical_mantissa in Hc. apply Z.eqb_eq in Hc.
  unfold fexp, emin, prec, emax in Hc. change IntDef.Z.max with Z.max in Hc.
  unfold fleb, SFleb, fone in H1. cbn [SFcompare] in H1.
  pose proof (Zdigits2_bound (Zpos m) ltac:(lia)) as Hb. cbn [Zdigits2] in Hb.
  destruct (Z.compare_spec e (-52)) as [He|He|He]; try discriminate.
  - subst e. split; [lia|].
    apply compare_cont_le in H1.    change (2 ^ (- -52)) with (Zpos 4503599627370496). exact H1.
  - split; [lia|].
    assert (Hd : Zpos (digits2_pos m) <= 53) by lia.
    transitivity (2 ^ Zpos (digits2_pos m)); [lia|].
    apply Z.pow_le_mono_r; lia.
Qed.

Lemma scale_le n r z :
  1 <= n < 2 ^ 53 -> in_unit_interval r -> scale n r = Ok z -> z <= n.
Proof.
  intros Hn Hr. unfold scale, mul_int_float.
  destruct (float_of_int_exact n Hn) as (mz & ez & -> & Hd & He & Hm).
  cbn [rbind].
  destruct r as [sr|sr| |sr mr er].
  - cbn. intros E. injection E as <-. lia.
  - destruct Hr as (_ & H0 & H1). destruct sr; discriminate.
  - destruct Hr as (_ & H0 & _). discriminate.
  - destruct (unit_mantissa_bound sr mr er Hr) as (-> & Her & Hmr).
    unfold fmul. cbn [SFmul xorb].
    replace (ez + er) with (- (- ez + - er)) by lia.
    apply rounded_product_le; try lia.
    change (Zpos (PosDef.Pos.mul mz mr)) with (Zpos mz * Zpos mr).
    rewrite Hm, pow2_split by lia.
    pose proof (pow2_pos (- ez) ltac:(lia)). nia.
Qed.

(** Whatever the sliders show, the region is a rectangle inside the image:
    for sides a double holds exactly and all four ratios in [0, 1], the
    start lies between 0 and the side, width and height are never negative
    (so the clipping to the image never has to cut below the start), the
    clipped size is at most the scaled one, and the mask has exactly
    width times height white pixels. *)
Theorem sliders_select_rectangle :
  forall (original_width original_height : Z)
         (x_start_ratio y_start_ratio mask_width_ratio mask_height_ratio
            : pyfloat),
    1 <= original_width < 2 ^ 53 ->
    1 <= original_height < 2 ^ 53 ->
    in_unit_interval x_start_ratio -> in_unit_interval y_start_ratio ->
    in_unit_interval mask_width_ratio -> in_unit_interval mask_height_ratio ->
    exists reg img w h,
      mask_region original_width original_height x_start_ratio y_start_ratio
        mask_width_ratio mask_height_ratio = Ok reg /\
      mask_of_ratios original_width original_height x_start_ratio
        y_start_ratio mask_width_ratio mask_height_ratio = Ok img /\
      scale original_width mask_width_ratio = Ok w /\
      scale original_height mask_height_ratio = Ok h /\
      0 <= x_start reg <= original_width /\
      0 <= y_start reg <= original_height /\
      0 <= mask_width reg <= w /\ 0 <= mask_height reg <= h /\
      x_start reg + mask_width reg <= original_width /\
      y_start reg + mask_height reg <= original_height /\
      count_white img =
        (Z.to_nat (mask_width reg) * Z.to_nat (mask_height reg))%nat.
Proof.
  intros W H x0 y0 rw rh HW HH Hx Hy Hw Hh.
  assert (Hlim : 2 ^ 53 < dimension_limit)
    by (unfold dimension_limit; apply Z.pow_lt_mono_r; lia).
  destruct (scale_total W x0 ltac:(lia) Hx) as (xs & E1).
  destruct (scale_total H y0 ltac:(lia) Hy) as (ys & E2).
  destruct (scale_total W rw ltac:(lia) Hw) as (mw & E3).
  destruct (scale_total H rh ltac:(lia) Hh) as (mh & E4).
  pose proof (mask_region_unfold W H x0 y0 rw rh xs ys mw mh E1 E2 E3 E4) as Hreg.
  assert (Hxs : 0 <= xs)
    by (apply (scale_nonneg W x0); [lia|apply Hx|exact E1]).
  assert (Hys : 0 <= ys)
    by (apply (scale_nonneg H y0); [lia|apply Hy|exact E2]).
  assert (Hmw : 0 <= mw)
    by (apply (scale_nonneg W rw); [lia|apply Hw|exact E3]).
  assert (Hmh : 0 <= mh)
    by (apply (scale_nonneg H rh); [lia|apply Hh|exact E4]).
  pose proof (scale_le W x0 xs HW Hx E1) as Hxw.
  pose proof (scale_le H y0 ys HH Hy E2) as Hyh.
  destruct (draw_mask_spec W H
              {| x_start := xs; y_start := ys;
                 mask_width := Z.min (xs + mw) W - xs;
                 mask_height := Z.min (ys + mh) H - ys |})
    as (img & E & Hsx & Hsy & Hpix); cbn [x_start y_start mask_width mask_height];
    try lia.
  eexists _, img, mw, mh. split; [exact Hreg|].
  unfold mask_of_ratios. rewrite Hreg. cbn [rbind].
  split; [exact E|]. split; [exact E3|]. split; [exact E4|].
  cbn [x_start y_start mask_width mask_height].
  repeat (split; [lia|]).
  apply (count_white_region img
           {| x_start := xs; y_start := ys;
              mask_width := Z.min (xs + mw) W - xs;
              mask_height := Z.min (ys + mh) H - ys |});
    cbn [x_start y_start mask_width mask_height]; try lia. exact Hpix.
Qed.

Lemma sliders_select_rectangle_witness :
  exists reg img w h,
    mask_region 10 8 fone (decimal 25 100)
      (decimal 3 10) (decimal 5 10) = Ok reg /\
    mask_of_ratios 10 8 fone (decimal 25 100)
      (decimal 3 10) (decimal 5 10) = Ok img /\
    scale 10 (decimal 3 10) = Ok w /\
    scale 8 (decimal 5 10) = Ok h /\
    0 <= x_start reg <= 10 /\
    0 <= y_start reg <= 8 /\
    0 <= mask_width reg <= w /\ 0 <= mask_height reg <= h /\
    x_start reg + mask_width reg <= 10 /\
    y_start reg + mask_height reg <= 8 /\
    count_white img =
      (Z.to_nat (mask_width reg) * Z.to_nat (mask_height reg))%nat.
Proof.
  apply (sliders_select_rectangle 10 8 fone (decimal 25 100)
           (decimal 3 10) (decimal 5 10));
    try lia; repeat split; vm_compute; reflexivity.
Defined.

(** With the start slider at 1.0 the region starts on the far edge and is
    empty, whatever the width slider shows. *)
Example start_at_far_edge_is_empty :
  mask_region 10 8 fone (decimal 25 100) (decimal 3 10) (decimal 5 10) =
  Ok {| x_start := 10; y_start := 2; mask_width := 0; mask_height := 4 |}.
Proof. vm_compute. reflexivity. Qed.

End RegionFacts.
